(** * rtmk_sync: incremental FTP-to-monthly-CSV synchronisation

    A shallow embedding of [rtmk_sync.py] and the properties of its
    filename parser, ledger, monthly aggregator and orchestrator.

    Conventions of the embedding
    - A Python [str] is a [string]; its characters are read as code points
      below 256 (Latin-1).  Character-level code works on [list ascii].
    - Python exceptions are values of [raised]; a computation that may raise
      returns a [result].
    - The file system is a [world]: the ledger file, the [data/] and [raw/]
      directories and the log file.  Directory creation ([ensure_dirs],
      [mkdir]) has no counterpart: directories always exist.
    - The FTP server is a [remote]: what each connection attempt, [NLST] and
      [RETR] answer. *)

From Stdlib Require Import ZArith Ascii String Lia.
From stdpp Require Import base tactics option list sorting gmap strings pretty.

Local Open Scope Z_scope.
Local Open Scope stdpp_scope.

(** ** Exceptions *)

(** Subclasses of Python's [Exception] that the program meets. *)
Inductive exception :=
  | ValueError | IndexError | OSError | RuntimeError | CsvError | JSONDecodeError.

(** What a [raise] carries: an [Exception], or [KeyboardInterrupt], which is
    a [BaseException] and escapes [except Exception]. *)
Inductive raised :=
  | Exc (e : exception)
  | KeyboardInterrupt.

Inductive result (A : Type) :=
  | Ok (a : A)
  | Raise (e : raised).
Arguments Ok {A} a.
Arguments Raise {A} e.

#[global] Instance exception_eq_dec : EqDecision exception.
Proof. solve_decision. Defined.
#[global] Instance raised_eq_dec : EqDecision raised.
Proof. solve_decision. Defined.
#[global] Instance result_eq_dec {A} `{EqDecision A} : EqDecision (result A).
Proof. solve_decision. Defined.

Definition rbind {A B} (r : result A) (k : A → result B) : result B :=
  match r with
  | Ok a => k a
  | Raise e => Raise e
  end.

(** [try: body / except Exception: handler]. *)
Definition try_except {A} (body : result A) (handler : exception → result A) : result A :=
  match body with
  | Raise (Exc e) => handler e
  | other => other
  end.

(** ** Characters and character lists *)

Definition chars (s : string) : list ascii := list_ascii_of_string s.
Definition code (c : ascii) : N := N_of_ascii c.

Definition in_range (lo hi : ascii) (c : ascii) : bool :=
  (code lo <=? code c)%N && (code c <=? code hi)%N.

(** [c.isdigit()] on a code point below 256: the ASCII digits and the
    superscripts U+00B2, U+00B3, U+00B9. *)
Definition char_isdigit (c : ascii) : bool :=
  in_range "0" "9" c || (code c =? 178)%N || (code c =? 179)%N || (code c =? 185)%N.

(** [s.isdigit()]: every character is a digit and there is at least one. *)
Definition isdigit (s : list ascii) : bool :=
  match s with
  | [] => false
  | _ => forallb char_isdigit s
  end.

(** [s.rfind(c)]: the highest index of [c], or -1. *)
Fixpoint rfind (c : ascii) (s : list ascii) : Z :=
  match s with
  | [] => -1
  | x :: s' =>
      let r := rfind c s' in
      if 0 <=? r then r + 1 else if Ascii.eqb x c then 0 else -1
  end.

(** [s.split(sep)] for a one-character separator. *)
Fixpoint split (sep : ascii) (s : list ascii) : list (list ascii) :=
  match s with
  | [] => [[]]
  | c :: s' =>
      if Ascii.eqb c sep then [] :: split sep s'
      else match split sep s' with
           | p :: ps => (c :: p) :: ps
           | [] => [[c]]
           end
  end.

(** The loop of [genericpath._splitext] that skips the leading dots of the
    file name: [Some] is its early return, [None] its normal end. *)
Fixpoint splitext_loop (p : list ascii) (dotIndex : nat) (filenameIndex fuel : nat)
    : option (list ascii * list ascii) :=
  match fuel with
  | O => None
  | S fuel' =>
      match p !! filenameIndex with
      | Some c =>
          if Ascii.eqb c "." then splitext_loop p dotIndex (S filenameIndex) fuel'
          else Some (take dotIndex p, drop dotIndex p)
      | None => Some (take dotIndex p, drop dotIndex p)
      end
  end.

(** [os.path.splitext] of [posixpath]: separator [/], extension separator
    [.], no alternative separator. *)
Definition splitext (p : list ascii) : list ascii * list ascii :=
  let sepIndex := rfind "/" p in
  let dotIndex := rfind "." p in
  if sepIndex <? dotIndex then
    let filenameIndex := sepIndex + 1 in
    match splitext_loop p (Z.to_nat dotIndex) (Z.to_nat filenameIndex)
            (Z.to_nat (dotIndex - filenameIndex)) with
    | Some r => r
    | None => (p, [])
    end
  else (p, []).

(** ** [datetime.strptime] *)

Record datetime := mk_datetime {
  year : Z; month : Z; day : Z; hour : Z; minute : Z; second : Z
}.

Record date := mk_date { d_year : Z; d_month : Z; d_day : Z }.

(** [dttm.date()] *)
Definition date_of (t : datetime) : date :=
  {| d_year := year t; d_month := month t; d_day := day t |}.

(** [a <= b] on dates: lexicographic on year, month, day. *)
Definition date_leb (a b : date) : bool :=
  (d_year a <? d_year b)
  || ((d_year a =? d_year b)
      && ((d_month a <? d_month b)
          || ((d_month a =? d_month b) && (d_day a <=? d_day b)))).

Definition is_leap (y : Z) : bool :=
  (y mod 4 =? 0) && (negb (y mod 100 =? 0) || (y mod 400 =? 0)).

Definition days_in_month (y m : Z) : Z :=
  if m =? 2 then (if is_leap y then 29 else 28)
  else if (m =? 4) || (m =? 6) || (m =? 9) || (m =? 11) then 30
  else 31.

(** The checks of the [datetime] constructor. *)
Definition datetime_valid (t : datetime) : bool :=
  (1 <=? year t) && (year t <=? 9999)
  && (1 <=? month t) && (month t <=? 12)
  && (1 <=? day t) && (day t <=? days_in_month (year t) (month t))
  && (0 <=? hour t) && (hour t <=? 23)
  && (0 <=? minute t) && (minute t <=? 59)
  && (0 <=? second t) && (second t <=? 59).

(** A regular-expression character class, an alternative (a sequence of
    classes) and a token of a compiled format: a named group of
    alternatives, tried in order, or a literal character. *)
Definition cclass := ascii → bool.
Definition alternative := list cclass.

Inductive token :=
  | Group (name : ascii) (alts : list alternative)
  | Lit (c : ascii).

(** [\d] on code points below 256. *)
Definition re_d : cclass := in_range "0" "9".
Definition re_is (c : ascii) : cclass := Ascii.eqb c.

(** The directive table of [_strptime.TimeRE] for the directives used here. *)
Definition re_Y : list alternative := [[re_d; re_d; re_d; re_d]].
Definition re_m : list alternative :=
  [[re_is "1"; in_range "0" "2"]; [re_is "0"; in_range "1" "9"]; [in_range "1" "9"]].
Definition re_day : list alternative :=
  [[re_is "3"; in_range "0" "1"]; [in_range "1" "2"; re_d];
   [re_is "0"; in_range "1" "9"]; [in_range "1" "9"];
   [re_is " "; in_range "1" "9"]].
Definition re_H : list alternative :=
  [[re_is "2"; in_range "0" "3"]; [in_range "0" "1"; re_d]; [re_d]].
Definition re_M : list alternative := [[in_range "0" "5"; re_d]; [re_d]].
Definition re_S : list alternative :=
  [[re_is "6"; in_range "0" "1"]; [in_range "0" "5"; re_d]; [re_d]].

Definition directive (c : ascii) : option (list alternative) :=
  if Ascii.eqb c "Y" then Some re_Y
  else if Ascii.eqb c "m" then Some re_m
  else if Ascii.eqb c "d" then Some re_day
  else if Ascii.eqb c "H" then Some re_H
  else if Ascii.eqb c "M" then Some re_M
  else if Ascii.eqb c "S" then Some re_S
  else None.

(** [TimeRE.pattern]: a format string to its tokens; [None] for a directive
    outside the table. *)
Fixpoint compile_format (fmt : list ascii) : option (list token) :=
  match fmt with
  | [] => Some []
  | c :: fmt' =>
      if Ascii.eqb c "%" then
        match fmt' with
        | d :: fmt'' =>
            match directive d, compile_format fmt'' with
            | Some alts, Some ts => Some (Group d alts :: ts)
            | _, _ => None
            end
        | [] => None
        end
      else
        match compile_format fmt' with
        | Some ts => Some (Lit c :: ts)
        | None => None
        end
  end.

(** One alternative against the front of the input: the matched text and
    the rest. *)
Fixpoint match_alternative (a : alternative) (s : list ascii)
    : option (list ascii * list ascii) :=
  match a, s with
  | [], _ => Some ([], s)
  | p :: a', c :: s' =>
      if p c then
        match match_alternative a' s' with
        | Some (m, r) => Some (c :: m, r)
        | None => None
        end
      else None
  | _ :: _, [] => None
  end.

(** [re.match] for a token sequence: alternatives are tried in order, and a
    later token that fails sends the matcher back to the next alternative of
    an earlier group.  The result lists the groups found and the input left
    over. *)
Fixpoint re_match (ts : list token) (s : list ascii)
    : option (list (ascii * list ascii) * list ascii) :=
  match ts with
  | [] => Some ([], s)
  | Lit c :: ts' =>
      match s with
      | x :: s' => if Ascii.eqb x c then re_match ts' s' else None
      | [] => None
      end
  | Group name alts :: ts' =>
      (fix try (alts : list alternative) :=
         match alts with
         | [] => None
         | a :: alts' =>
             match match_alternative a s with
             | Some (m, r) =>
                 match re_match ts' r with
                 | Some (found, rest) => Some ((name, m) :: found, rest)
                 | None => try alts'
                 end
             | None => try alts'
             end
         end) alts
  end.

(** [int(text)] for the texts a group can match: decimal digits, after an
    optional blank. *)
Definition py_int (text : list ascii) : Z :=
  fold_left (λ acc c, if Ascii.eqb c " " then acc else 10 * acc + (Z.of_N (code c) - 48))
            text 0.

(** The field assignments of [_strptime], from the defaults 1900-01-01
    00:00:00. *)
Definition set_field (t : datetime) (g : ascii * list ascii) : datetime :=
  let v := py_int g.2 in
  let n := g.1 in
  if Ascii.eqb n "Y" then mk_datetime v (month t) (day t) (hour t) (minute t) (second t)
  else if Ascii.eqb n "m" then mk_datetime (year t) v (day t) (hour t) (minute t) (second t)
  else if Ascii.eqb n "d" then mk_datetime (year t) (month t) v (hour t) (minute t) (second t)
  else if Ascii.eqb n "H" then mk_datetime (year t) (month t) (day t) v (minute t) (second t)
  else if Ascii.eqb n "M" then mk_datetime (year t) (month t) (day t) (hour t) v (second t)
  else if Ascii.eqb n "S" then mk_datetime (year t) (month t) (day t) (hour t) (minute t) v
  else t.

(** [datetime.strptime(data_string, format)]: [ValueError] when the format
    does not match, when data remains unconverted, or when the fields are not
    a date and time. *)
Definition strptime (data_string : list ascii) (format : string) : result datetime :=
  match compile_format (chars format) with
  | None => Raise (Exc ValueError)
  | Some ts =>
      match re_match ts data_string with
      | None => Raise (Exc ValueError)
      | Some (found, rest) =>
          match rest with
          | _ :: _ => Raise (Exc ValueError)
          | [] =>
              let t := fold_left set_field found (mk_datetime 1900 1 1 0 0 0) in
              if datetime_valid t then Ok t else Raise (Exc ValueError)
          end
      end
  end.

(** ** Filename scope parser *)

(** [parts[i]], raising [IndexError] out of range. *)
Definition index {A} (l : list A) (i : nat) : result A :=
  match l !! i with
  | Some x => Ok x
  | None => Raise (Exc IndexError)
  end.

(** One [try: if cond: return strptime(..) / except Exception: pass] block:
    [Ok (Some t)] returns [t], [Ok None] falls through to the next
    statement. *)
Definition try_parse (cond : result bool) (text : list ascii) (format : string)
    : result (option datetime) :=
  try_except
    (rbind cond (λ b, if b then rbind (strptime text format) (λ t, Ok (Some t))
                      else Ok None))
    (λ _, Ok None).

Definition extract_datetime_from_fname (fname : string) : result (option datetime) :=
  let base := (splitext (chars fname)).1 in
  let parts := split "_" base in
  if (length parts <? 2)%nat then Ok None
  else
    rbind (index parts 1) (λ tail,
    rbind (try_parse
             (if (15 <=? length tail)%nat
              then rbind (index tail 8) (λ c, Ok (Ascii.eqb c "T"))
              else Ok false)
             (take 15 tail) "%Y%m%dT%H%M%S") (λ r1,
    match r1 with
    | Some t => Ok (Some t)
    | None =>
        rbind (try_parse (Ok (isdigit (take 14 tail))) (take 14 tail) "%Y%m%d%H%M%S") (λ r2,
        match r2 with
        | Some t => Ok (Some t)
        | None => Ok None
        end)
    end)).

(** The timestamp of a name as a plain value: [None] is Python's [None]
    (the parser is shown below never to raise). *)
Definition timestamp (fname : string) : option datetime :=
  match extract_datetime_from_fname fname with
  | Ok o => o
  | Raise _ => None
  end.

(** ** Names that spell a timestamp *)

(** The decimal digit [n] as a character, and numbers written with two and
    four digits. *)
Definition digit_char (n : Z) : ascii := ascii_of_N (Z.to_N (48 + n)).

Definition digits2 (n : Z) : list ascii := [digit_char (n / 10); digit_char (n mod 10)].

Definition digits4 (n : Z) : list ascii :=
  [digit_char (n / 1000); digit_char (n / 100 mod 10);
   digit_char (n / 10 mod 10); digit_char (n mod 10)].

(** A character that the stamps are made of, as far as the parser can tell:
    not the separators, and a digit for [isdigit]. *)
Definition digit_like (c : ascii) : Prop :=
  Ascii.eqb c "T" = false ∧ Ascii.eqb c "_" = false ∧ char_isdigit c = true.

(** [YYYYMMDDThhmmss] and [YYYYMMDDhhmmss] for a date and time. *)
Definition stamp_T (t : datetime) : list ascii :=
  digits4 (year t) ++ digits2 (month t) ++ digits2 (day t)
  ++ "T"%char :: digits2 (hour t) ++ digits2 (minute t) ++ digits2 (second t).

Definition stamp_digits (t : datetime) : list ascii :=
  digits4 (year t) ++ digits2 (month t) ++ digits2 (day t)
  ++ digits2 (hour t) ++ digits2 (minute t) ++ digits2 (second t).

(** ** Configuration *)

(** The entries of [CONFIG] that the modelled code reads; [START_DATE] is
    [start_from_date] already parsed. *)
Record config := {
  ftp_host : string;
  ftp_user : string;
  ftp_pass : string;
  start_from_date : date;
  rebuild_months : bool;
  connect_retries : nat
}.

Definition file_in_scope (cfg : config) (fname : string) : result bool :=
  rbind (extract_datetime_from_fname fname) (λ dttm,
  Ok (match dttm with
      | Some t => date_leb (start_from_date cfg) (date_of t)
      | None => false
      end)).

(** [f"{n:02d}"] *)
Definition format_02d (n : Z) : string :=
  if (0 <=? n) && (n <? 10) then "0" +:+ pretty n else pretty n.

(** [now] is what [dt.datetime.now()] answers. *)
Definition year_month_for (now : datetime) (fname : string) : result string :=
  rbind (extract_datetime_from_fname fname) (λ dttm,
  match dttm with
  | None => Ok (pretty (year now) +:+ "-" +:+ format_02d (month now))
  | Some t => Ok (pretty (year t) +:+ "-" +:+ format_02d (month t))
  end).

(** The partition key of a name as a plain value. *)
Definition partition_key (now : datetime) (fname : string) : string :=
  match year_month_for now fname with
  | Ok ym => ym
  | Raise _ => ""
  end.

(** The name of a monthly file inside [data/]. *)
Definition month_path (ym : string) : string := ym +:+ ".csv".

(** ** The world: files and the remote server *)

Definition row := list string.

(** A raw CSV file, seen through [csv.reader]: the rows it yields (a blank
    line yields the empty row), or a text the reader rejects. *)
Inductive raw_content :=
  | Rows (rows : list row)
  | BadCsv.

(** The ledger is a JSON array of names; other JSON documents are kept apart. *)
Inductive json :=
  | JNull
  | JBool (b : bool)
  | JNumber (n : Z)
  | JString (s : string)
  | JObject
  | JArray (names : list string).

(** The file at [STATE_PATH]: absent, present but failing to open or
    decode, not JSON, or a JSON document. *)
Inductive ledger_file :=
  | NoFile
  | Unreadable
  | Malformed
  | Json (v : json).

Inductive log_line :=
  | LogStart
  | LogConnecting (attempt total : nat)
  | LogConnectFailed
  | LogNoScope
  | LogRemoved (name : string)
  | LogNoDiff
  | LogDownloading (f : string)
  | LogMerged (name : string) (added : nat)
  | LogWarnFailed (f : string)
  | LogEnd (ok skipped : nat)
  | LogInterrupted
  | LogError.

Record world := mk_world {
  state_file : ledger_file;
  data_dir : gmap string (list row);
  raw_dir : gmap string raw_content;
  log_file : list log_line
}.

(** What [RETR] does for one name: the whole file, or a failure (an
    [Exception] of [ftplib]) or an interruption after part of it. *)
Inductive fetch_result :=
  | Fetched (c : raw_content)
  | FetchFails (partial : raw_content)
  | FetchInterrupted (partial : raw_content).

Record remote := {
  connect_ok : nat → bool;
  nlst : result (list string);
  retr : string → fetch_result
}.

(** ** The monad of the program: state and exceptions *)

Definition M (A : Type) : Type := world → result A * world.

Definition ret {A} (a : A) : M A := λ w, (Ok a, w).

Definition bind {A B} (c : M A) (k : A → M B) : M B :=
  λ w, match c w with
       | (Ok a, w') => k a w'
       | (Raise e, w') => (Raise e, w')
       end.

Definition raise {A} (e : raised) : M A := λ w, (Raise e, w).

Definition lift {A} (r : result A) : M A := λ w, (r, w).

(** [try: body / except Exception: handler] *)
Definition try_exceptM {A} (body : M A) (handler : exception → M A) : M A :=
  λ w, match body w with
       | (Raise (Exc e), w') => handler e w'
       | other => other
       end.

Notation "'let*' x ':=' c 'in' k" := (bind c (λ x, k))
  (at level 10, x pattern, c at level 100, k at level 200).
Notation "c1 '>>>' c2" := (bind c1 (λ _, c2))
  (at level 100, c2 at level 200, right associativity).

Fixpoint mapR {A B} (f : A → result B) (l : list A) : result (list B) :=
  match l with
  | [] => Ok []
  | x :: l' => rbind (f x) (λ y, rbind (mapR f l') (λ ys, Ok (y :: ys)))
  end.

(** [[x for x in l if f(x)]] *)
Fixpoint filterR {A} (f : A → result bool) (l : list A) : result (list A) :=
  match l with
  | [] => Ok []
  | x :: l' => rbind (f x) (λ b, rbind (filterR f l') (λ ys, Ok (if b then x :: ys else ys)))
  end.

(** [for x in l: body(x)] *)
Fixpoint forM {A} (l : list A) (body : A → M unit) : M unit :=
  match l with
  | [] => ret tt
  | x :: l' => body x >>> forM l' body
  end.

(** [sorted] on names. *)
Definition sorted (l : list string) : list string := merge_sort String.le l.

(** ** Log and ledger *)

Definition log (msg : log_line) : M unit :=
  λ w, (Ok tt, mk_world (state_file w) (data_dir w) (raw_dir w) (log_file w ++ [msg])).

Definition json_load (f : ledger_file) : result json :=
  match f with
  | NoFile => Raise (Exc OSError)
  | Unreadable => Raise (Exc OSError)
  | Malformed => Raise (Exc JSONDecodeError)
  | Json v => Ok v
  end.

Definition path_exists (f : ledger_file) : bool :=
  match f with
  | NoFile => false
  | _ => true
  end.

Definition load_state : M (list string) :=
  λ w,
    if negb (path_exists (state_file w)) then (Ok [], w)
    else
      (try_except
         (rbind (json_load (state_file w)) (λ v,
          Ok (match v with
              | JArray l => l
              | _ => []
              end)))
         (λ _, Ok []),
       w).

Definition save_state (files : list string) : M unit :=
  λ w, (Ok tt,
        mk_world (Json (JArray (sorted (elements (list_to_set files : gset string)))))
                 (data_dir w) (raw_dir w) (log_file w)).

(** The names a ledger file stands for: those of a JSON array, none
    otherwise. *)
Definition ledger_names (f : ledger_file) : list string :=
  match f with
  | Json (JArray names) => names
  | _ => []
  end.

(** One load-then-save cycle. *)
Definition resave : M unit := let* names := load_state in save_state names.

(** ** FTP *)

Fixpoint connect_loop (r : remote) (total attempt fuel : nat) : M unit :=
  match fuel with
  | O => raise (Exc RuntimeError)
  | S fuel' =>
      log (LogConnecting attempt total) >>>
      if connect_ok r attempt then ret tt
      else log LogConnectFailed >>> connect_loop r total (S attempt) fuel'
  end.

Definition ftp_connect (cfg : config) (r : remote) : M unit :=
  if bool_decide (ftp_host cfg = "") || bool_decide (ftp_user cfg = "")
     || bool_decide (ftp_pass cfg = "")
  then raise (Exc RuntimeError)
  else connect_loop r (connect_retries cfg) 1 (connect_retries cfg).

(** [c.lower()] on a code point below 256. *)
Definition lower_char (c : ascii) : ascii :=
  if in_range "A" "Z" c || ((192 <=? code c)%N && (code c <=? 222)%N && negb (code c =? 215)%N)
  then ascii_of_N (code c + 32)
  else c.

Definition endswith (s suffix : list ascii) : bool :=
  bool_decide (drop (length s - length suffix) s = suffix).

Definition list_remote_csv (r : remote) : M (list string) :=
  lift (rbind (nlst r) (λ names,
        Ok (filter (λ n, endswith (lower_char <$> chars n) (chars ".csv") = true) names))).

(** ** Download and merge *)

(** The raw file is opened for writing before the transfer, so it exists
    afterwards whatever the transfer did. *)
Definition download_file (r : remote) (fname : string) : M string :=
  λ w,
    let store c := mk_world (state_file w) (data_dir w) (<[fname := c]> (raw_dir w)) (log_file w) in
    match retr r fname with
    | Fetched c => (Ok fname, store c)
    | FetchFails partial => (Raise (Exc OSError), store partial)
    | FetchInterrupted partial => (Raise KeyboardInterrupt, store partial)
    end.

Definition append_raw_to_monthly (raw_path : string) (ym : string) : M nat :=
  λ w,
    let monthly_path := month_path ym in
    match raw_dir w !! raw_path with
    | None => (Raise (Exc OSError), w)
    | Some BadCsv => (Raise (Exc CsvError), w)
    | Some (Rows rows) =>
        match rows with
        | [] => (Ok 0%nat, w)
        | header :: rest =>
            let data_rows := filter (λ r : row, r ≠ []) rest in
            let written :=
              match data_dir w !! monthly_path with
              | Some old => old ++ data_rows
              | None => header :: data_rows
              end in
            (Ok (length data_rows),
             mk_world (state_file w) (<[monthly_path := written]> (data_dir w))
                      (raw_dir w) (log_file w))
        end
    end.

Definition unlink_month (ym : string) : M unit :=
  λ w,
    let p := month_path ym in
    match data_dir w !! p with
    | Some _ =>
        log (LogRemoved p)
            (mk_world (state_file w) (delete p (data_dir w)) (raw_dir w) (log_file w))
    | None => (Ok tt, w)
    end.

Definition clear_target_month_files_if_rebuild (cfg : config) (now : datetime)
    (scope_files : list string) : M unit :=
  if negb (rebuild_months cfg) then ret tt
  else
    let* yms := lift (mapR (year_month_for now) scope_files) in
    let months := sorted (elements (list_to_set yms : gset string)) in
    forM months unlink_month.

(** ** Orchestrator *)

(** One iteration of the loop over [new_files]; the accumulator is
    [state_set], [ok], [skipped]. *)
Definition process_file (now : datetime) (r : remote) (f : string)
    (acc : gset string * nat * nat) : M (gset string * nat * nat) :=
  let '(state_set, ok, skipped) := acc in
  let* ym := lift (year_month_for now f) in
  try_exceptM
    (log (LogDownloading f) >>>
     let* raw_path := download_file r f in
     let* added := append_raw_to_monthly raw_path ym in
     log (LogMerged (month_path ym) added) >>>
     ret ({[f]} ∪ state_set, S ok, skipped))
    (λ _, log (LogWarnFailed f) >>> ret (state_set, ok, S skipped)).

Fixpoint process_files (now : datetime) (r : remote) (new_files : list string)
    (acc : gset string * nat * nat) : M (gset string * nat * nat) :=
  match new_files with
  | [] => ret acc
  | f :: rest => let* acc' := process_file now r f acc in process_files now r rest acc'
  end.

(** The statements of [main] from the loop to the end of the [try] body. *)
Definition merge_new_files (now : datetime) (r : remote) (new_files : list string)
    (state_set : gset string) : M unit :=
  let* (state_set', ok, skipped) := process_files now r new_files (state_set, 0%nat, 0%nat) in
  save_state (elements state_set') >>>
  log (LogEnd ok skipped).

(** The [try] body of [main] after the connection. *)
Definition sync (cfg : config) (now : datetime) (r : remote) (state_set : gset string) : M unit :=
  let* names := list_remote_csv r in
  let remote_names := sorted names in
  let* scope := lift (filterR (file_in_scope cfg) remote_names) in
  match scope with
  | [] => log LogNoScope
  | _ =>
      clear_target_month_files_if_rebuild cfg now scope >>>
      let new_files := filter (λ f, f ∉ state_set) scope in
      match new_files with
      | [] => log LogNoDiff
      | _ => merge_new_files now r new_files state_set
      end
  end.

(** The handlers of [main]: an interruption is logged and swallowed, any
    other exception is logged and raised again.  Closing the session
    ([finally]) touches nothing of the world. *)
Definition main_handlers (body : M unit) : M unit :=
  λ w, match body w with
       | (Raise KeyboardInterrupt, w') => log LogInterrupted w'
       | (Raise (Exc e), w') => (log LogError >>> raise (Exc e)) w'
       | other => other
       end.

Definition main (cfg : config) (now : datetime) (r : remote) : M unit :=
  log LogStart >>>
  let* state := load_state in
  let state_set : gset string := list_to_set state in
  main_handlers (ftp_connect cfg r >>> sync cfg now r state_set).

(** A stretch of the log that only reports removed monthly files. *)
Definition only_removals (lg : list log_line) : Prop :=
  ∀ l, l ∈ lg → ∃ n, l = LogRemoved n.

(** ** Plain descriptions of the effects, used to state the properties *)

Definition add_log (w : world) (lg : list log_line) : world :=
  mk_world (state_file w) (data_dir w) (raw_dir w) (log_file w ++ lg).

(** The rows of a raw file that a merge appends: the non-empty rows after
    the header. *)
Definition data_rows (rows : list row) : list row :=
  filter (λ r : row, r ≠ []) (tail rows).

(** The names in scope among those listed, in the order of the loop. *)
Definition scope_of (cfg : config) (names : list string) : list string :=
  filter (λ f, file_in_scope cfg f = Ok true) (sorted names).

(** The names in scope that the ledger does not hold. *)
Definition new_files_of (cfg : config) (names : list string) (state_set : gset string)
    : list string :=
  filter (λ f, f ∉ state_set) (scope_of cfg names).

(** The monthly files of the names in scope. *)
Definition scope_paths (cfg : config) (now : datetime) (names : list string) : list string :=
  (month_path ∘ partition_key now) <$> scope_of cfg names.

(** The rows of the monthly file [p]; none when the file does not exist. *)
Definition rows_at (d : gmap string (list row)) (p : string) : list row :=
  default [] (d !! p).

(** The [data/] directory after merging the parsed rows of one raw file into
    the monthly file [p]. *)
Definition merge_rows (rows : list row) (p : string) (d : gmap string (list row))
    : gmap string (list row) :=
  match rows with
  | [] => d
  | header :: _ =>
      <[p := match d !! p with
             | Some old => old ++ data_rows rows
             | None => header :: data_rows rows
             end]> d
  end.

(** The rows the server delivers for a name, when [RETR] completes and the
    file parses. *)
Definition fetched_rows (r : remote) (f : string) : option (list row) :=
  match retr r f with
  | Fetched (Rows rows) => Some rows
  | _ => None
  end.

Definition interrupted (r : remote) (f : string) : bool :=
  match retr r f with
  | FetchInterrupted _ => true
  | _ => false
  end.

(** What [RETR] leaves in [raw/] for a name. *)
Definition raw_left (r : remote) (f : string) : raw_content :=
  match retr r f with
  | Fetched c => c
  | FetchFails partial => partial
  | FetchInterrupted partial => partial
  end.

(** The [data/] directory after the loop has gone through [fs]. *)
Definition data_after (now : datetime) (r : remote) (fs : list string)
    (d : gmap string (list row)) : gmap string (list row) :=
  foldl (λ d f, match fetched_rows r f with
                | Some rows => merge_rows rows (month_path (partition_key now f)) d
                | None => d
                end) d fs.

(** The names the loop adds to the ledger when it goes through [fs]. *)
Definition merged_names (r : remote) (fs : list string) : list string :=
  filter (λ f, is_Some (fetched_rows r f)) fs.

(** The last line of the log says the run ended without an interruption or
    an error: the final report or one of the two early returns. *)
Definition run_succeeded (w : world) : Prop :=
  match last (log_file w) with
  | Some (LogEnd _ _) | Some LogNoScope | Some LogNoDiff => True
  | _ => False
  end.

(** The run connects, with [w0] the world at that point, and the server
    lists [names] (already restricted to CSV names). *)
Definition reaches_listing (cfg : config) (r : remote) (w w0 : world)
    (names : list string) : Prop :=
  ftp_connect cfg r (add_log w [LogStart]) = (Ok tt, w0)
  ∧ list_remote_csv r w0 = (Ok names, w0).


(** The server [r] with the answer of [RETR] for [f] replaced by [c]. *)
Definition replace_answer (r : remote) (f : string) (c : fetch_result) : remote :=
  {| connect_ok := connect_ok r;
     nlst := nlst r;
     retr := λ g, if bool_decide (g = f) then c else retr r g |}.

(** ** Sample inputs *)

Module Sample.
Definition now : datetime := mk_datetime 2026 1 1 0 0 0.

Definition cfg : config :=
  {| ftp_host := "ftp.example.org"; ftp_user := "user"; ftp_pass := "secret";
     start_from_date := mk_date 2025 11 1;
     rebuild_months := false;
     connect_retries := 3 |}.

Definition cfg_rebuild : config :=
  {| ftp_host := "ftp.example.org"; ftp_user := "user"; ftp_pass := "secret";
     start_from_date := mk_date 2025 11 1;
     rebuild_months := true;
     connect_retries := 3 |}.

(** Two files of December 2025 and one of November 2025. *)
Definition dec1 : string := "A_20251219T170000.CSV".
Definition dec2 : string := "A_20251219T171000.CSV".
Definition nov1 : string := "B_20251105080000.CSV".

Definition header : row := ["a"; "b"; "c"].
Definition rows_dec1 : list row := [header; ["1"; "2"; "3"]; ["4"; "5"; "6"]].
Definition rows_nov1 : list row :=
  [header; ["7"; "8"; "9"]; []; ["10"; "11"; "12"]; ["13"; "14"; "15"]].

Definition empty_world : world := mk_world NoFile ∅ ∅ [].


(** A server on which the transfer of [nov1] fails. *)
Definition remote_nov1_fails : remote :=
  {| connect_ok := λ _, true;
     nlst := Ok [dec1; nov1];
     retr := λ f, if bool_decide (f = dec1) then Fetched (Rows rows_dec1)
                  else FetchFails (Rows []) |}.

(** A server that delivers both [dec1] and [nov1]. *)
Definition remote_ok : remote :=
  {| connect_ok := λ _, true;
     nlst := Ok [nov1; dec1; "notes.txt"];
     retr := λ f, if bool_decide (f = dec1) then Fetched (Rows rows_dec1)
                  else Fetched (Rows rows_nov1) |}.

(** A server on which the transfer of [nov1] is interrupted. *)
Definition remote_interrupted : remote :=
  {| connect_ok := λ _, true;
     nlst := Ok [nov1; dec1];
     retr := λ f, if bool_decide (f = dec1) then Fetched (Rows rows_dec1)
                  else FetchInterrupted (Rows []) |}.

Definition cfg_late : config :=
  {| ftp_host := "ftp.example.org"; ftp_user := "user"; ftp_pass := "secret";
     start_from_date := mk_date 2025 12 1;
     rebuild_months := false;
     connect_retries := 3 |}.

(** Two raw files with the same header, of two and three data rows. *)
Definition world_with_raw : world :=
  mk_world NoFile ∅
    (<["first.csv" := Rows [header; ["1"; "2"; "3"]; ["4"; "5"; "6"]] ]>
       (<["second.csv" := Rows [header; ["7"; "8"; "9"]; ["10"; "11"; "12"];
                                ["13"; "14"; "15"]] ]> ∅))
    [].

(** A ledger that holds [dec1], and monthly files for December and
    October 2025. *)
Definition world_with_months : world :=
  mk_world (Json (JArray [dec1]))
    (<["2025-12.csv" := [header; ["1"; "2"; "3"]; ["4"; "5"; "6"]] ]>
       (<["2025-10.csv" := [header; ["0"; "0"; "0"]] ]> ∅))
    ∅ [].

(** The world after the connection, for a server that accepts the first
    attempt. *)
Definition connected (w : world) : world :=
  add_log w [LogStart; LogConnecting 1 3].

(** The CSV names the sample servers list, as [list_remote_csv] gives
    them. *)
Definition listed : list string := [nov1; dec1].

(** The world a first run leaves, from nothing, with the server that
    delivers both files. *)
Definition after_first_run : world := (main cfg now remote_ok empty_world).2.
End Sample.

(** ** Environment and configuration values *)

(** [_env(name, default)] over [os.environ]: a variable that is unset or
    empty gives the default. *)
Definition _env (environ : gmap string string) (name default : string) : string :=
  match environ !! name with
  | Some v => if bool_decide (v = "") then default else v
  | None => default
  end.

(** [CONFIG["rebuild_months"]] *)
Definition config_rebuild_months (environ : gmap string string) : bool :=
  bool_decide (_env environ "REBUILD_MONTHS" "0" ∈ ["1"; "true"; "TRUE"; "yes"; "YES"]).

(** [START_DATE]: the module raises [ValueError] when the text is not a
    date. *)
Definition START_DATE (environ : gmap string string) : result date :=
  rbind (strptime (chars (_env environ "START_FROM_DATE" "2025-11-01")) "%Y-%m-%d")
        (λ t, Ok (date_of t)).

(** [YYYY-MM-DD] for a date. *)
Definition date_text (d : date) : list ascii :=
  digits4 (d_year d) ++ "-"%char :: digits2 (d_month d) ++ "-"%char :: digits2 (d_day d).

(** The date is one of the calendar: midnight of that day is a [datetime]. *)
Definition date_valid (d : date) : bool :=
  datetime_valid (mk_datetime (d_year d) (d_month d) (d_day d) 0 0 0).

(** The log lines of [k] failed connection attempts, the first numbered
    [from]. *)
Definition failed_attempts (total from k : nat) : list log_line :=
  flat_map (λ i, [LogConnecting i total; LogConnectFailed]) (seq from k).

(** The credentials that [ftp_connect] requires are all set. *)
Definition credentials_set (cfg : config) : Prop :=
  ftp_host cfg ≠ "" ∧ ftp_user cfg ≠ "" ∧ ftp_pass cfg ≠ "".

(** ** More sample inputs *)

Module Cases.
(** The timestamps that [Sample.dec1], [Sample.dec2] and [Sample.nov1]
    spell. *)
Definition stamp_dec1 : datetime := mk_datetime 2025 12 19 17 0 0.
Definition stamp_dec2 : datetime := mk_datetime 2025 12 19 17 10 0.
Definition stamp_nov1 : datetime := mk_datetime 2025 11 5 8 0 0.

(** A name of the [T] layout whose digits are not a date. *)
Definition bad_day : string := "A_20251232T170000.CSV".

(** A monthly file with a header of its own, and a raw file to merge into
    it, with a blank line among its rows. *)
Definition world_to_merge : world :=
  mk_world NoFile
    (<["2025-12.csv" := [["x"; "y"]; ["0"; "0"]] ]> ∅)
    (<["new.csv" := Rows [Sample.header; ["1"; "2"; "3"]; []; ["4"; "5"; "6"]] ]> ∅)
    [].

(** A server whose files are empty. *)
Definition remote_empty_files : remote :=
  {| connect_ok := λ _, true;
     nlst := Ok [Sample.dec1];
     retr := λ _, Fetched (Rows []) |}.

(** A server that accepts the second connection attempt. *)
Definition remote_second_attempt : remote :=
  {| connect_ok := λ k, bool_decide (k = 2%nat);
     nlst := Ok [];
     retr := λ _, FetchFails (Rows []) |}.

Definition cfg_no_password : config :=
  {| ftp_host := "ftp.example.org"; ftp_user := "user"; ftp_pass := "";
     start_from_date := mk_date 2025 11 1;
     rebuild_months := false;
     connect_retries := 3 |}.

(** The CSV names of [Sample.remote_nov1_fails], and its run from nothing. *)
Definition listed : list string := [Sample.dec1; Sample.nov1].

Definition run_nov1_fails : result unit * world :=
  main Sample.cfg Sample.now Sample.remote_nov1_fails Sample.empty_world.

(** A run with rebuild mode off over a world that has monthly files. *)
Definition run_over_months : result unit * world :=
  main Sample.cfg Sample.now Sample.remote_ok Sample.world_with_months.
End Cases.

(** * Properties *)

(** ** Sample runs of the filename parser *)

Example extract_T : extract_datetime_from_fname "235_20251219T170000.CSV"
  = Ok (Some (mk_datetime 2025 12 19 17 0 0)).
Proof. vm_compute. reflexivity. Qed.

Example extract_digits : extract_datetime_from_fname "D000_20250616115008.CSV"
  = Ok (Some (mk_datetime 2025 6 16 11 50 8)).
Proof. vm_compute. reflexivity. Qed.

Example extract_bad_month : extract_datetime_from_fname "A_20251301000000.CSV" = Ok None.
Proof. vm_compute. reflexivity. Qed.

Example extract_blank_day : extract_datetime_from_fname "A_202512 9T170000.CSV"
  = Ok (Some (mk_datetime 2025 12 9 17 0 0)).
Proof. vm_compute. reflexivity. Qed.

Example extract_no_underscore : extract_datetime_from_fname "README.CSV" = Ok None.
Proof. vm_compute. reflexivity. Qed.


(** C4, where the code departs from it.  The tail of [A_202511123.CSV] is
    [202511123]: nine digits, so neither [YYYYMMDDThhmmss] nor
    [YYYYMMDDhhmmss].  The digit branch has no length test (the [T] branch
    has one), and [strptime] accepts fields of one digit, so the name gets
    the timestamp 2025-01-01 01:02:03 instead of none. *)
Theorem extract_datetime_short_digit_tail :
  split "_" (splitext (chars "A_202511123.CSV")).1 = [chars "A"; chars "202511123"]
  ∧ length (chars "202511123") = 9%nat
  ∧ extract_datetime_from_fname "A_202511123.CSV"
    = Ok (Some (mk_datetime 2025 1 1 1 2 3)).
Proof. split_and!; vm_compute; reflexivity. Qed.

(** ** The filename parser never raises *)

Lemma strptime_raises_only_ValueError data_string format :
  (∃ t, strptime data_string format = Ok t)
  ∨ strptime data_string format = Raise (Exc ValueError).
Proof.
  unfold strptime.
  destruct (compile_format (chars format)) as [ts|]; [|by right].
  destruct (re_match ts data_string) as [[found rest]|]; [|by right].
  destruct rest; [|by right].
  destruct (datetime_valid _); [left; eauto | by right].
Qed.

Lemma try_parse_total cond text format b :
  cond = Ok b → ∃ o, try_parse cond text format = Ok o.
Proof.
  intros ->. unfold try_parse. simpl. destruct b; [|by eexists].
  destruct (strptime_raises_only_ValueError text format) as [[t ->] | ->];
    simpl; by eexists.
Qed.

Lemma index_in_range {A} (l : list A) (i : nat) :
  (i < length l)%nat → ∃ x, index l i = Ok x ∧ l !! i = Some x.
Proof.
  intros Hi. destruct (lookup_lt_is_Some_2 l i Hi) as [x Hx].
  exists x. unfold index. by rewrite Hx.
Qed.

Lemma extract_datetime_total fname :
  extract_datetime_from_fname fname = Ok (timestamp fname).
Proof.
  unfold timestamp.
  enough (∃ o, extract_datetime_from_fname fname = Ok o) as [o ->] by done.
  unfold extract_datetime_from_fname.
  set (parts := split "_" (splitext (chars fname)).1).
  destruct (length parts <? 2)%nat eqn:Hlen; [by eexists|].
  apply Nat.ltb_ge in Hlen.
  destruct (index_in_range parts 1) as (tail & -> & _); [lia|]. cbn [rbind].
  assert (∃ b, (if (15 <=? length tail)%nat
                then rbind (index tail 8) (λ c, Ok (Ascii.eqb c "T"))
                else Ok false) = Ok b) as [b Hb].
  { destruct (15 <=? length tail)%nat eqn:H15; [|by eexists].
    apply Nat.leb_le in H15.
    destruct (index_in_range tail 8) as (c & -> & _); [lia|]. by eexists. }
  destruct (try_parse_total _ (take 15 tail) "%Y%m%dT%H%M%S" b Hb) as [r1 ->].
  cbn [rbind]. destruct r1; [by eexists|].
  destruct (try_parse_total (Ok (isdigit (take 14 tail))) (take 14 tail)
              "%Y%m%d%H%M%S" _ eq_refl) as [r2 ->].
  cbn [rbind]. destruct r2; by eexists.
Qed.

Lemma file_in_scope_eq cfg fname :
  file_in_scope cfg fname
  = Ok (match timestamp fname with
        | Some t => date_leb (start_from_date cfg) (date_of t)
        | None => false
        end).
Proof. unfold file_in_scope. by rewrite extract_datetime_total. Qed.

Lemma date_leb_trans a b c :
  date_leb a b = true → date_leb b c = true → date_leb a c = true.
Proof.
  unfold date_leb. intros Hab Hbc.
  repeat match goal with
         | H : _ || _ = true |- _ => apply orb_true_iff in H as [H|H]
         | H : _ && _ = true |- _ => apply andb_true_iff in H as [? ?]
         | H : (_ <? _) = true |- _ => apply Z.ltb_lt in H
         | H : (_ =? _) = true |- _ => apply Z.eqb_eq in H
         | H : (_ <=? _) = true |- _ => apply Z.leb_le in H
         end;
  repeat match goal with
         | |- context [?x <? ?y] => destruct (Z.ltb_spec x y)
         | |- context [?x =? ?y] => destruct (Z.eqb_spec x y)
         | |- context [?x <=? ?y] => destruct (Z.leb_spec x y)
         end; simpl; try reflexivity; lia.
Qed.

(** C6. [file_in_scope] is monotonic in the scope bound.  For two bounds
    [lo <= hi]: a name in scope under [hi] is in scope under [lo], a name out
    of scope under [lo] stays out of scope under [hi], and a name whose
    timestamp is undecidable is out of scope under both. *)
Theorem file_in_scope_monotone (cfg_lo cfg_hi : config) (fname : string) :
  date_leb (start_from_date cfg_lo) (start_from_date cfg_hi) = true →
  (file_in_scope cfg_hi fname = Ok true → file_in_scope cfg_lo fname = Ok true)
  ∧ (file_in_scope cfg_lo fname = Ok false → file_in_scope cfg_hi fname = Ok false)
  ∧ (extract_datetime_from_fname fname = Ok None →
     file_in_scope cfg_lo fname = Ok false ∧ file_in_scope cfg_hi fname = Ok false).
Proof.
  intros Hle. rewrite !file_in_scope_eq, extract_datetime_total.
  destruct (timestamp fname) as [t|].
  - split_and!.
    + intros [= Hhi]. f_equal. eapply date_leb_trans; eauto.
    + intros [= Hlo]. f_equal.
      destruct (date_leb (start_from_date cfg_hi) (date_of t)) eqn:Hhi; [|done].
      rewrite (date_leb_trans _ _ _ Hle Hhi) in Hlo. done.
    + intros [= ?].
  - split_and!; done.
Qed.

(** ** Names of the two layouts *)

(** Case analysis on an integer known to lie in a short range. *)
Ltac enum_range v lo n :=
  lazymatch n with
  | O => exfalso; lia
  | S ?n' =>
      let lo' := eval compute in (lo + 1) in
      destruct (Z.eq_dec v lo) as [->|?]; [| enum_range v lo' n']
  end.

(** Write the digits of a known number out. *)
Ltac eval_digits :=
  repeat match goal with
         | |- context [digits2 ?v] =>
             let c := eval vm_compute in (digits2 v) in change (digits2 v) with c
         end.

(** Evaluate the character classes met on known characters. *)
Ltac eval_classes :=
  repeat (cbn; unfold re_d;
          match goal with
          | |- context [in_range ?a ?b ?c] =>
              let v := eval vm_compute in (in_range a b c) in
              change (in_range a b c) with v
          end); cbn.

Lemma compile_format_T :
  compile_format (chars "%Y%m%dT%H%M%S")
  = Some [Group "Y" re_Y; Group "m" re_m; Group "d" re_day; Lit "T";
          Group "H" re_H; Group "M" re_M; Group "S" re_S].
Proof. reflexivity. Qed.

Lemma compile_format_digits :
  compile_format (chars "%Y%m%d%H%M%S")
  = Some [Group "Y" re_Y; Group "m" re_m; Group "d" re_day;
          Group "H" re_H; Group "M" re_M; Group "S" re_S].
Proof. reflexivity. Qed.

Lemma re_match_m ts v rest found r :
  1 ≤ v ≤ 12 →
  re_match ts rest = Some (found, r) →
  re_match (Group "m" re_m :: ts) (digits2 v ++ rest) = Some (("m"%char, digits2 v) :: found, r).
Proof.
  intros Hv Hts. enum_range v 1 12%nat; eval_digits; eval_classes; by rewrite Hts.
Qed.

Lemma re_match_day ts v rest found r :
  1 ≤ v ≤ 31 →
  re_match ts rest = Some (found, r) →
  re_match (Group "d" re_day :: ts) (digits2 v ++ rest)
  = Some (("d"%char, digits2 v) :: found, r).
Proof.
  intros Hv Hts. enum_range v 1 31%nat; eval_digits; eval_classes; by rewrite Hts.
Qed.

Lemma re_match_H ts v rest found r :
  0 ≤ v ≤ 23 →
  re_match ts rest = Some (found, r) →
  re_match (Group "H" re_H :: ts) (digits2 v ++ rest)
  = Some (("H"%char, digits2 v) :: found, r).
Proof.
  intros Hv Hts. enum_range v 0 24%nat; eval_digits; eval_classes; by rewrite Hts.
Qed.

Lemma re_match_M ts v rest found r :
  0 ≤ v ≤ 59 →
  re_match ts rest = Some (found, r) →
  re_match (Group "M" re_M :: ts) (digits2 v ++ rest)
  = Some (("M"%char, digits2 v) :: found, r).
Proof.
  intros Hv Hts. enum_range v 0 60%nat; eval_digits; eval_classes; by rewrite Hts.
Qed.

Lemma re_match_S ts v rest found r :
  0 ≤ v ≤ 59 →
  re_match ts rest = Some (found, r) →
  re_match (Group "S" re_S :: ts) (digits2 v ++ rest)
  = Some (("S"%char, digits2 v) :: found, r).
Proof.
  intros Hv Hts. enum_range v 0 60%nat; eval_digits; eval_classes; by rewrite Hts.
Qed.

Lemma py_int_digits2 v : 0 ≤ v ≤ 59 → py_int (digits2 v) = v.
Proof. intros Hv. enum_range v 0 60%nat; reflexivity. Qed.

Lemma digit_char_spec d :
  0 ≤ d ≤ 9 →
  re_d (digit_char d) = true
  ∧ Ascii.eqb (digit_char d) " " = false
  ∧ Ascii.eqb (digit_char d) "T" = false
  ∧ Ascii.eqb (digit_char d) "_" = false
  ∧ char_isdigit (digit_char d) = true
  ∧ Z.of_N (code (digit_char d)) - 48 = d.
Proof. intros Hd. enum_range d 0 10%nat; vm_compute; done. Qed.
Lemma digits4_range y :
  0 ≤ y ≤ 9999 →
  0 ≤ y / 1000 ≤ 9 ∧ 0 ≤ y / 100 mod 10 ≤ 9 ∧ 0 ≤ y / 10 mod 10 ≤ 9 ∧ 0 ≤ y mod 10 ≤ 9
  ∧ 10 * (10 * (10 * (y / 1000) + y / 100 mod 10) + y / 10 mod 10) + y mod 10 = y.
Proof. intros Hy. Z.div_mod_to_equations. lia. Qed.

Lemma digits2_range v :
  0 ≤ v ≤ 99 → 0 ≤ v / 10 ≤ 9 ∧ 0 ≤ v mod 10 ≤ 9.
Proof. intros Hv. Z.div_mod_to_equations. lia. Qed.

Lemma re_match_Y ts y rest found r :
  0 ≤ y ≤ 9999 →
  re_match ts rest = Some (found, r) →
  re_match (Group "Y" re_Y :: ts) (digits4 y ++ rest)
  = Some (("Y"%char, digits4 y) :: found, r).
Proof.
  intros Hy Hts. destruct (digits4_range y Hy) as (H1 & H2 & H3 & H4 & _).
  destruct (digit_char_spec _ H1) as (E1 & _).
  destruct (digit_char_spec _ H2) as (E2 & _).
  destruct (digit_char_spec _ H3) as (E3 & _).
  destruct (digit_char_spec _ H4) as (E4 & _).
  unfold digits4.
  generalize dependent (digit_char (y / 1000)).
  generalize dependent (digit_char (y / 100 mod 10)).
  generalize dependent (digit_char (y / 10 mod 10)).
  generalize dependent (digit_char (y mod 10)).
  intros c4 E4 c3 E3 c2 E2 c1 E1.
  cbn. rewrite E1, E2, E3, E4. by rewrite Hts.
Qed.

Lemma py_int_digits4 y : 0 ≤ y ≤ 9999 → py_int (digits4 y) = y.
Proof.
  intros Hy. destruct (digits4_range y Hy) as (H1 & H2 & H3 & H4 & Hsum).
  destruct (digit_char_spec _ H1) as (_ & B1 & _ & _ & _ & V1).
  destruct (digit_char_spec _ H2) as (_ & B2 & _ & _ & _ & V2).
  destruct (digit_char_spec _ H3) as (_ & B3 & _ & _ & _ & V3).
  destruct (digit_char_spec _ H4) as (_ & B4 & _ & _ & _ & V4).
  unfold py_int, digits4. cbn [fold_left]. rewrite B1, B2, B3, B4, V1, V2, V3, V4. lia.
Qed.

Lemma datetime_valid_ranges t :
  datetime_valid t = true →
  1 ≤ year t ≤ 9999 ∧ 1 ≤ month t ≤ 12 ∧ 1 ≤ day t ≤ 31
  ∧ 0 ≤ hour t ≤ 23 ∧ 0 ≤ minute t ≤ 59 ∧ 0 ≤ second t ≤ 59.
Proof.
  unfold datetime_valid. rewrite !andb_true_iff, !Z.leb_le.
  intros (((((((((((? & ?) & ?) & ?) & ?) & Hd) & ?) & ?) & ?) & ?) & ?) & ?).
  assert (days_in_month (year t) (month t) ≤ 31).
  { unfold days_in_month. destruct (month t =? 2); [destruct (is_leap (year t)); lia|].
    destruct (_ || _); lia. }
  lia.
Qed.

Lemma set_field_Y t v : set_field t ("Y"%char, v) = mk_datetime (py_int v) (month t) (day t) (hour t) (minute t) (second t).
Proof. reflexivity. Qed.
Lemma set_field_m t v : set_field t ("m"%char, v) = mk_datetime (year t) (py_int v) (day t) (hour t) (minute t) (second t).
Proof. reflexivity. Qed.
Lemma set_field_d t v : set_field t ("d"%char, v) = mk_datetime (year t) (month t) (py_int v) (hour t) (minute t) (second t).
Proof. reflexivity. Qed.
Lemma set_field_H t v : set_field t ("H"%char, v) = mk_datetime (year t) (month t) (day t) (py_int v) (minute t) (second t).
Proof. reflexivity. Qed.
Lemma set_field_M t v : set_field t ("M"%char, v) = mk_datetime (year t) (month t) (day t) (hour t) (py_int v) (second t).
Proof. reflexivity. Qed.
Lemma set_field_S t v : set_field t ("S"%char, v) = mk_datetime (year t) (month t) (day t) (hour t) (minute t) (py_int v).
Proof. reflexivity. Qed.

Lemma found_fields t :
  datetime_valid t = true →
  fold_left set_field
    [("Y"%char, digits4 (year t)); ("m"%char, digits2 (month t));
     ("d"%char, digits2 (day t)); ("H"%char, digits2 (hour t));
     ("M"%char, digits2 (minute t)); ("S"%char, digits2 (second t))]
    (mk_datetime 1900 1 1 0 0 0) = t.
Proof.
  intros (Hy & Hm & Hd & HH & HM & HS)%datetime_valid_ranges.
  cbn [fold_left].
  rewrite set_field_Y, set_field_m, set_field_d, set_field_H, set_field_M, set_field_S.
  cbn [year month day hour minute second].
  rewrite py_int_digits4 by lia.
  rewrite !py_int_digits2 by lia.
  by destruct t.
Qed.

Lemma re_match_Lit c ts rest :
  re_match (Lit c :: ts) (c :: rest) = re_match ts rest.
Proof. cbn [re_match]. by rewrite Ascii.eqb_refl. Qed.

Lemma strptime_stamp_T t :
  datetime_valid t = true → strptime (stamp_T t) "%Y%m%dT%H%M%S" = Ok t.
Proof.
  intros Hvalid. pose proof (datetime_valid_ranges t Hvalid) as (Hy & Hm & Hd & HH & HM & HS).
  unfold strptime. rewrite compile_format_T. unfold stamp_T.
  rewrite <- (app_nil_r (digits2 (second t))).
  erewrite re_match_Y; [| lia |].
  2:{ apply re_match_m; [lia|]. apply re_match_day; [lia|].
      rewrite re_match_Lit.
      apply re_match_H; [lia|]. apply re_match_M; [lia|]. apply re_match_S; [lia|].
      reflexivity. }
  rewrite found_fields, Hvalid by done. done.
Qed.

Lemma strptime_stamp_digits t :
  datetime_valid t = true → strptime (stamp_digits t) "%Y%m%d%H%M%S" = Ok t.
Proof.
  intros Hvalid. pose proof (datetime_valid_ranges t Hvalid) as (Hy & Hm & Hd & HH & HM & HS).
  unfold strptime. rewrite compile_format_digits. unfold stamp_digits.
  rewrite <- (app_nil_r (digits2 (second t))).
  erewrite re_match_Y; [| lia |].
  2:{ apply re_match_m; [lia|]. apply re_match_day; [lia|].
      apply re_match_H; [lia|]. apply re_match_M; [lia|]. apply re_match_S; [lia|].
      reflexivity. }
  rewrite found_fields, Hvalid by done. done.
Qed.

Lemma rfind_spec c s :
  (rfind c s = -1 ∧ (c ∉ s))
  ∨ (∃ pre post, s = pre ++ c :: post ∧ (c ∉ post) ∧ rfind c s = Z.of_nat (length pre)).
Proof.
  induction s as [|x s IH].
  - left. split; [done|]. apply not_elem_of_nil.
  - cbn [rfind]. destruct IH as [[-> Hnot] | (pre & post & -> & Hpost & ->)].
    + cbn. destruct (Ascii.eqb_spec x c) as [->|Hne].
      * right. exists [], s. done.
      * left. split; [done|]. by apply not_elem_of_cons.
    + right. exists (x :: pre), post. split_and!; [done | done |].
      destruct (Z.leb_spec 0 (Z.of_nat (length pre))); [|lia].
      cbn [length]. lia.
Qed.

Lemma splitext_loop_result p dotIndex filenameIndex fuel r :
  splitext_loop p dotIndex filenameIndex fuel = Some r →
  r = (take dotIndex p, drop dotIndex p).
Proof.
  revert filenameIndex. induction fuel as [|fuel IH]; intros filenameIndex; [done|].
  cbn [splitext_loop]. destruct (p !! filenameIndex) as [c|]; [|by intros [= <-]].
  destruct (Ascii.eqb c "."); [apply IH | by intros [= <-]].
Qed.

(** The base that [splitext] returns is the whole path, or the path up to
    its last dot. *)
Lemma splitext_base p :
  (splitext p).1 = p
  ∨ ∃ e, p = (splitext p).1 ++ "."%char :: e ∧ ("."%char ∉ e).
Proof.
  unfold splitext. destruct (Z.ltb_spec (rfind "/" p) (rfind "." p)) as [Hlt|]; [|by left].
  destruct (splitext_loop _ _ _ _) as [r|] eqn:Hloop; [|by left].
  apply splitext_loop_result in Hloop as ->. right.
  destruct (rfind_spec "." p) as [[Hm _] | (pre & post & Hp & Hpost & Hi)].
  - destruct (rfind_spec "/" p) as [[Hs _] | (pre' & post' & _ & _ & Hs)]; lia.
  - rewrite Hi, Nat2Z.id. exists post. cbn [fst]. subst p.
    by rewrite take_app_length.
Qed.

(** A path that has a dot after [pre] keeps [pre] in its base. *)
Lemma splitext_keeps pre ext :
  ∃ rest, (splitext (pre ++ "."%char :: ext)).1 = pre ++ rest.
Proof.
  destruct (splitext_base (pre ++ "."%char :: ext)) as [-> | (e & He & Hdot)]; [by eexists|].
  remember (splitext (pre ++ "."%char :: ext)).1 as base eqn:Hbase. clear Hbase.
  apply app_eq_app in He as [l [[Hpre He] | [Hb _]]].
  - destruct l as [|x l].
    + exists []. rewrite app_nil_r in *. done.
    + cbn in He. injection He as _ ->. exfalso. apply Hdot.
      apply elem_of_app. right. by left.
  - by exists l.
Qed.

Lemma split_nonempty sep s : ∃ r more, split sep s = r :: more.
Proof.
  induction s as [|x s (r & more & IH)]; [by eexists _, _|].
  cbn [split]. destruct (Ascii.eqb x sep); [by eexists _, _|].
  rewrite IH. by eexists _, _.
Qed.

Lemma split_first sep s rest :
  sep ∉ s → ∃ r more, split sep (s ++ rest) = (s ++ r) :: more.
Proof.
  induction s as [|x s IH]; intros Hs.
  - apply split_nonempty.
  - apply not_elem_of_cons in Hs as [Hx Hs]. destruct (IH Hs) as (r & more & Hsplit).
    cbn [app split]. destruct (Ascii.eqb_spec x sep) as [->|_]; [done|].
    rewrite Hsplit. by eexists _, _.
Qed.

Lemma split_at_sep sep s rest :
  sep ∉ s → split sep (s ++ sep :: rest) = s :: split sep rest.
Proof.
  induction s as [|x s IH]; intros Hs.
  - cbn. by rewrite Ascii.eqb_refl.
  - apply not_elem_of_cons in Hs as [Hx Hs].
    cbn [app split]. destruct (Ascii.eqb_spec x sep) as [->|_]; [done|].
    by rewrite IH.
Qed.

(** Fewer than two segments: a base without underscore. *)
Lemma split_without_sep sep s : sep ∉ s → split sep s = [s].
Proof.
  induction s as [|x s IH]; intros Hs; [done|].
  apply not_elem_of_cons in Hs as [Hx Hs].
  cbn [split]. destruct (Ascii.eqb_spec x sep) as [->|_]; [done|].
  by rewrite IH.
Qed.

(** The second segment of a name [prefix_stamp.ext] starts with the stamp. *)
Lemma tail_of_stamped_name (fname prefix ext : string) (stamp : list ascii) :
  "_"%char ∉ chars prefix → "_"%char ∉ stamp →
  chars fname = chars prefix ++ "_"%char :: stamp ++ "."%char :: chars ext →
  ∃ r more, split "_" (splitext (chars fname)).1 = chars prefix :: (stamp ++ r) :: more.
Proof.
  intros Hprefix Hstamp Hname.
  assert (Hn : chars fname = (chars prefix ++ "_"%char :: stamp) ++ "."%char :: chars ext)
    by (rewrite Hname, <- app_assoc; done).
  rewrite Hn.
  destruct (splitext_keeps (chars prefix ++ "_"%char :: stamp) (chars ext)) as [rest ->].
  rewrite <- app_assoc. cbn [app].
  rewrite split_at_sep by done.
  destruct (split_first "_" stamp rest Hstamp) as (r & more & ->).
  by eexists _, _.
Qed.

(** What the parser does once the second segment is known. *)
Lemma extract_datetime_with_tail fname first tail more :
  split "_" (splitext (chars fname)).1 = first :: tail :: more →
  extract_datetime_from_fname fname
  = rbind (try_parse
             (if (15 <=? length tail)%nat
              then rbind (index tail 8) (λ c, Ok (Ascii.eqb c "T"))
              else Ok false)
             (take 15 tail) "%Y%m%dT%H%M%S") (λ r1,
    match r1 with
    | Some t => Ok (Some t)
    | None =>
        rbind (try_parse (Ok (isdigit (take 14 tail))) (take 14 tail) "%Y%m%d%H%M%S") (λ r2,
        match r2 with
        | Some t => Ok (Some t)
        | None => Ok None
        end)
    end).
Proof. intros Hparts. unfold extract_datetime_from_fname. rewrite Hparts. reflexivity. Qed.


Lemma digit_char_like d : 0 ≤ d ≤ 9 → digit_like (digit_char d).
Proof. intros Hd. destruct (digit_char_spec d Hd) as (_ & _ & ? & ? & ? & _). done. Qed.

Lemma stamp_digits_like t :
  datetime_valid t = true → Forall digit_like (stamp_digits t).
Proof.
  intros (Hy & Hm & Hd & HH & HM & HS)%datetime_valid_ranges.
  destruct (digits4_range (year t)) as (? & ? & ? & ? & _); [lia|].
  destruct (digits2_range (month t)); [lia|].
  destruct (digits2_range (day t)); [lia|].
  destruct (digits2_range (hour t)); [lia|].
  destruct (digits2_range (minute t)); [lia|].
  destruct (digits2_range (second t)); [lia|].
  unfold stamp_digits, digits4, digits2. cbn [app].
  repeat (apply Forall_cons; split; [by apply digit_char_like|]).
  apply Forall_nil_2.
Qed.

Lemma stamp_T_split t :
  stamp_T t = take 8 (stamp_digits t) ++ "T"%char :: drop 8 (stamp_digits t).
Proof. reflexivity. Qed.

Lemma not_sep_digit_like (l : list ascii) : Forall digit_like l → "_"%char ∉ l.
Proof.
  intros Hl Hin. rewrite Forall_forall in Hl. destruct (Hl _ Hin) as (_ & Hu & _).
  by rewrite Ascii.eqb_refl in Hu.
Qed.

Lemma isdigit_digit_like (l : list ascii) : l ≠ [] → Forall digit_like l → isdigit l = true.
Proof.
  intros Hne Hl. destruct l as [|c l]; [done|]. unfold isdigit.
  apply forallb_forall. intros x Hx%list_elem_of_In.
  rewrite Forall_forall in Hl. by destruct (Hl x Hx) as (_ & _ & ?).
Qed.

(** X2. A name [PREFIX_YYYYMMDDThhmmss.ext] whose digits spell a date and
    time gets exactly that date and time. *)
Lemma extract_datetime_T_layout (fname prefix ext : string) (t : datetime) :
  "_"%char ∉ chars prefix →
  datetime_valid t = true →
  chars fname = chars prefix ++ "_"%char :: stamp_T t ++ "."%char :: chars ext →
  extract_datetime_from_fname fname = Ok (Some t).
Proof.
  intros Hprefix Hvalid Hname.
  pose proof (stamp_digits_like t Hvalid) as Hlike.
  assert (Hsep : "_"%char ∉ stamp_T t).
  { rewrite stamp_T_split. intros [Hin|Hin]%elem_of_app.
    - apply (not_sep_digit_like (take 8 (stamp_digits t))); [|done].
      by apply Forall_take.
    - apply elem_of_cons in Hin as [[=]|Hin].
      apply (not_sep_digit_like (drop 8 (stamp_digits t))); [|done].
      by apply Forall_drop. }
  destruct (tail_of_stamped_name fname prefix ext (stamp_T t) Hprefix Hsep Hname)
    as (r & more & Hparts).
  rewrite (extract_datetime_with_tail _ _ _ _ Hparts).
  assert (Hlen : length (stamp_T t) = 15%nat) by reflexivity.
  assert (H15 : (15 <=? length (stamp_T t ++ r))%nat = true)
    by (apply Nat.leb_le; rewrite length_app; lia).
  assert (H8 : index (stamp_T t ++ r) 8 = Ok "T"%char)
    by (unfold index; rewrite lookup_app_l by lia; reflexivity).
  rewrite H15, H8, (take_app_length' _ _ 15) by done.
  unfold try_parse. rewrite strptime_stamp_T by done. reflexivity.
Qed.

(** X3. A name [PREFIX_YYYYMMDDhhmmss.ext] whose digits spell a date and
    time gets exactly that date and time. *)
Lemma extract_datetime_digit_layout (fname prefix ext : string) (t : datetime) :
  "_"%char ∉ chars prefix →
  datetime_valid t = true →
  chars fname = chars prefix ++ "_"%char :: stamp_digits t ++ "."%char :: chars ext →
  extract_datetime_from_fname fname = Ok (Some t).
Proof.
  intros Hprefix Hvalid Hname.
  pose proof (stamp_digits_like t Hvalid) as Hlike.
  destruct (tail_of_stamped_name fname prefix ext (stamp_digits t) Hprefix
              (not_sep_digit_like _ Hlike) Hname) as (r & more & Hparts).
  rewrite (extract_datetime_with_tail _ _ _ _ Hparts).
  assert (Hlen : length (stamp_digits t) = 14%nat) by reflexivity.
  assert (Hfirst : (if (15 <=? length (stamp_digits t ++ r))%nat
                    then rbind (index (stamp_digits t ++ r) 8) (λ c, Ok (Ascii.eqb c "T"))
                    else Ok false) = Ok false).
  { destruct (15 <=? _)%nat; [|done].
    unfold index. rewrite lookup_app_l by lia.
    destruct (stamp_digits t !! 8%nat) as [c|] eqn:Hc; [|done].
    apply list_elem_of_lookup_2 in Hc. rewrite Forall_forall in Hlike.
    destruct (Hlike c Hc) as (HT & _). cbn [rbind]. by rewrite HT. }
  rewrite Hfirst. rewrite (take_app_length' _ _ 14) by done.
  unfold try_parse at 1. cbn [rbind try_except].
  rewrite isdigit_digit_like; [|by intros Hnil; rewrite Hnil in Hlen | done].
  unfold try_parse. rewrite strptime_stamp_digits by done. reflexivity.
Qed.

(** X4. A name whose base has no underscore has fewer than two segments
    and gets no timestamp. *)
Lemma extract_datetime_one_segment (fname : string) :
  "_"%char ∉ (splitext (chars fname)).1 →
  length (split "_" (splitext (chars fname)).1) = 1%nat
  ∧ extract_datetime_from_fname fname = Ok None.
Proof.
  intros Hno. unfold extract_datetime_from_fname.
  rewrite (split_without_sep _ _ Hno). done.
Qed.

(** ** Ledger *)

Lemma load_state_eq w : load_state w = (Ok (ledger_names (state_file w)), w).
Proof.
  unfold load_state. destruct (state_file w) as [| | |v]; simpl; try done.
Qed.


Lemma sorted_Sorted l : Sorted String.le (sorted l).
Proof. apply (Sorted_merge_sort String.le). Qed.

Lemma sorted_Permutation l : sorted l ≡ₚ l.
Proof. apply merge_sort_Permutation. Qed.

Lemma elem_of_sorted x l : x ∈ sorted l ↔ x ∈ l.
Proof. by rewrite sorted_Permutation. Qed.

Lemma sorted_fixed l : Sorted String.le l → sorted l = l.
Proof.
  intros Hl. apply (Sorted_unique String.le); [apply sorted_Sorted | done |].
  apply sorted_Permutation.
Qed.

Lemma sorted_perm l1 l2 : l1 ≡ₚ l2 → sorted l1 = sorted l2.
Proof.
  intros Hp. apply (Sorted_unique String.le); [apply sorted_Sorted..|].
  by rewrite !sorted_Permutation.
Qed.

(** What [save_state] writes, as a function of the names given. *)
Lemma saved_names_spec (x : list string) :
  let l := sorted (elements (list_to_set x : gset string)) in
  Sorted String.le l ∧ NoDup l ∧ ∀ n, n ∈ l ↔ n ∈ x.
Proof.
  simpl. split_and!.
  - apply sorted_Sorted.
  - rewrite sorted_Permutation. apply NoDup_elements.
  - intros n. rewrite elem_of_sorted, elem_of_elements, elem_of_list_to_set. done.
Qed.

Lemma saved_names_idem (x : list string) :
  let l := sorted (elements (list_to_set x : gset string)) in
  sorted (elements (list_to_set l : gset string)) = l.
Proof.
  simpl. destruct (saved_names_spec x) as (Hs & Hnd & _). simpl in *.
  rewrite <- (sorted_fixed _ Hs) at 2. apply sorted_perm.
  by apply elements_list_to_set.
Qed.

(** C5. For every list of names [x], [save_state] writes a JSON array that is
    sorted, free of duplicates and has exactly the names of [x]; loading
    gives that array back, and every further load-then-save cycle leaves the
    world, hence the persisted ledger, as the first save left it. *)
Theorem save_load_fixed_point (x : list string) (w : world) :
  let w1 := (save_state x w).2 in
  ∃ l, state_file w1 = Json (JArray l)
    ∧ Sorted String.le l ∧ NoDup l ∧ (∀ n, n ∈ l ↔ n ∈ x)
    ∧ load_state w1 = (Ok l, w1)
    ∧ ∀ k, Nat.iter k (λ w', (resave w').2) w1 = w1.
Proof.
  simpl. eexists. split; [reflexivity|].
  destruct (saved_names_spec x) as (Hs & Hnd & Hel). simpl in *.
  split_and!; try done.
  assert (Hre : ∀ w', state_file w' = Json (JArray (sorted (elements (list_to_set x : gset string))))
                → (resave w').2 = w').
  { intros [sf d rw lg] Hsf. simpl in Hsf. subst sf.
    unfold resave, bind. rewrite load_state_eq. simpl.
    by rewrite saved_names_idem. }
  induction k as [|k IH]; [done|].
  simpl. rewrite IH. by apply Hre.
Qed.

(** ** Monthly aggregator *)

(** The effect of one merge on the world, for a raw file that parses. *)
Lemma append_raw_to_monthly_rows (w : world) (src ym : string) (header : row) (rest : list row) :
  raw_dir w !! src = Some (Rows (header :: rest)) →
  append_raw_to_monthly src ym w
  = (Ok (length (filter (λ r : row, r ≠ []) rest)),
     mk_world (state_file w)
       (<[month_path ym :=
            match data_dir w !! month_path ym with
            | Some old => old ++ filter (λ r : row, r ≠ []) rest
            | None => header :: filter (λ r : row, r ≠ []) rest
            end]> (data_dir w))
       (raw_dir w) (log_file w)).
Proof. intros Hsrc. unfold append_raw_to_monthly. by rewrite Hsrc. Qed.

(** C3. [append_raw_to_monthly] returns the number of non-empty data rows
    of the source, which are the rows it appends.  Merging a source with a
    header into a partition that does not exist, then a second source with
    the same header, leaves the partition with the header once, followed by
    the non-empty data rows of the first source, then those of the second
    (with two and three such rows: one header and five data rows, in merge
    order), and leaves every other partition as it was. *)
Theorem append_raw_to_monthly_merges (w : world) (src1 src2 ym : string)
    (header : row) (rest1 rest2 : list row) :
  raw_dir w !! src1 = Some (Rows (header :: rest1)) →
  raw_dir w !! src2 = Some (Rows (header :: rest2)) →
  data_dir w !! month_path ym = None →
  let d1 := filter (λ r : row, r ≠ []) rest1 in
  let d2 := filter (λ r : row, r ≠ []) rest2 in
  ∃ w1 w2,
    append_raw_to_monthly src1 ym w = (Ok (length d1), w1)
    ∧ data_dir w1 !! month_path ym = Some (header :: d1)
    ∧ append_raw_to_monthly src2 ym w1 = (Ok (length d2), w2)
    ∧ data_dir w2 !! month_path ym = Some (header :: d1 ++ d2)
    ∧ (∀ p, p ≠ month_path ym → data_dir w2 !! p = data_dir w !! p).
Proof.
  intros Hs1 Hs2 Hnew d1 d2.
  rewrite (append_raw_to_monthly_rows w src1 ym header rest1 Hs1).
  rewrite Hnew. fold d1.
  eexists. eexists. split; [reflexivity|].
  split; [simpl; by rewrite lookup_insert_eq|].
  rewrite (append_raw_to_monthly_rows _ src2 ym header rest2) by done.
  simpl. rewrite lookup_insert_eq. fold d2.
  split; [reflexivity|]. simpl.
  split; [by rewrite lookup_insert_eq|].
  intros p Hp. by rewrite !lookup_insert_ne.
Qed.

(** ** Rebuild *)

Lemma year_month_for_eq now fname :
  year_month_for now fname = Ok (partition_key now fname).
Proof.
  unfold partition_key, year_month_for. rewrite extract_datetime_total.
  by destruct (timestamp fname).
Qed.

Lemma mapR_year_month_for now l :
  mapR (year_month_for now) l = Ok (partition_key now <$> l).
Proof.
  induction l as [|f l IH]; [done|].
  simpl. rewrite year_month_for_eq, IH. done.
Qed.

Lemma unlink_month_spec ym w :
  ∃ lg, unlink_month ym w
        = (Ok tt, mk_world (state_file w) (delete (month_path ym) (data_dir w))
                           (raw_dir w) (log_file w ++ lg))
        ∧ only_removals lg.
Proof.
  unfold unlink_month.
  destruct (data_dir w !! month_path ym) as [old|] eqn:Hp.
  - exists [LogRemoved (month_path ym)]. split; [done|].
    intros l ->%list_elem_of_singleton. eauto.
  - exists []. split.
    + rewrite app_nil_r, delete_id by done. by destruct w.
    + intros l Hl. by apply not_elem_of_nil in Hl.
Qed.

Lemma forM_unlink_month_spec months w :
  ∃ w', forM months unlink_month w = (Ok tt, w')
    ∧ state_file w' = state_file w
    ∧ raw_dir w' = raw_dir w
    ∧ (∀ p, data_dir w' !! p
            = if bool_decide (p ∈ month_path <$> months) then None else data_dir w !! p)
    ∧ ∃ lg, log_file w' = log_file w ++ lg ∧ only_removals lg.
Proof.
  revert w. induction months as [|ym months IH]; intros w.
  - exists w. split_and!; try done.
    exists []. split; [by rewrite app_nil_r|].
    intros l Hl. by apply not_elem_of_nil in Hl.
  - destruct (unlink_month_spec ym w) as (lg1 & Hu & Hlg1).
    destruct (IH (mk_world (state_file w) (delete (month_path ym) (data_dir w))
                           (raw_dir w) (log_file w ++ lg1)))
      as (w' & Hrun & Hsf & Hraw & Hdata & lg2 & Hlog & Hlg2).
    exists w'. simpl in *. unfold bind. rewrite Hu. split_and!; try done.
    + intros p. rewrite Hdata.
      destruct (decide (p = month_path ym)) as [->|Hne].
      * rewrite lookup_delete_eq.
        rewrite (bool_decide_eq_true_2 (_ ∈ _ :: _)) by (left).
        by case_bool_decide.
      * rewrite lookup_delete_ne by done.
        erewrite (bool_decide_ext (p ∈ _ :: _)); [done|].
        rewrite elem_of_cons. split; [by intros [?|?] | by right].
    + exists (lg1 ++ lg2). split; [by rewrite Hlog, app_assoc|].
      intros l [?|?]%elem_of_app; eauto.
Qed.

(** The effect of the rebuild step on the world. *)
Lemma clear_target_month_files_spec cfg now scope w :
  ∃ w', clear_target_month_files_if_rebuild cfg now scope w = (Ok tt, w')
    ∧ state_file w' = state_file w
    ∧ raw_dir w' = raw_dir w
    ∧ (∀ p, data_dir w' !! p
            = if rebuild_months cfg
                 && bool_decide (p ∈ (month_path ∘ partition_key now) <$> scope)
              then None else data_dir w !! p)
    ∧ ∃ lg, log_file w' = log_file w ++ lg ∧ only_removals lg.
Proof.
  unfold clear_target_month_files_if_rebuild.
  destruct (rebuild_months cfg); simpl.
  - unfold bind, lift. rewrite mapR_year_month_for.
    destruct (forM_unlink_month_spec
                (sorted (elements (list_to_set (partition_key now <$> scope) : gset string))) w)
      as (w' & Hrun & Hsf & Hraw & Hdata & Hlog).
    exists w'. split_and!; try done.
    intros p. rewrite Hdata. erewrite bool_decide_ext; [done|].
    rewrite !list_elem_of_fmap. split.
    + intros (ym & -> & Hym). apply elem_of_sorted, elem_of_elements in Hym.
      apply elem_of_list_to_set, list_elem_of_fmap in Hym as (f & -> & Hf). eauto.
    + intros (f & -> & Hf). exists (partition_key now f). split; [done|].
      apply elem_of_sorted, elem_of_elements, elem_of_list_to_set, list_elem_of_fmap. eauto.
  - exists w. split_and!; try done.
    exists []. split; [by rewrite app_nil_r|].
    intros l Hl. by apply not_elem_of_nil in Hl.
Qed.

(** ** The loop over the new files *)

Lemma append_raw_to_monthly_merge_rows w src ym rows :
  raw_dir w !! src = Some (Rows rows) →
  append_raw_to_monthly src ym w
  = (Ok (length (data_rows rows)),
     mk_world (state_file w) (merge_rows rows (month_path ym) (data_dir w))
              (raw_dir w) (log_file w)).
Proof.
  intros Hsrc. unfold append_raw_to_monthly. rewrite Hsrc.
  destruct rows as [|header rest]; [by destruct w|]. done.
Qed.

(** One iteration, by what the server answers for the file. *)
Lemma process_file_merged now r f S ok sk w rows :
  retr r f = Fetched (Rows rows) →
  process_file now r f (S, ok, sk) w
  = (Ok ({[f]} ∪ S, Datatypes.S ok, sk),
     mk_world (state_file w)
       (merge_rows rows (month_path (partition_key now f)) (data_dir w))
       (<[f := Rows rows]> (raw_dir w))
       (log_file w ++ [LogDownloading f;
                       LogMerged (month_path (partition_key now f))
                                 (length (data_rows rows))])).
Proof.
  intros Hr. unfold process_file, bind, lift, try_exceptM.
  rewrite year_month_for_eq. unfold log at 1. unfold download_file. rewrite Hr.
  cbn [state_file data_dir raw_dir log_file].
  erewrite append_raw_to_monthly_merge_rows; [|apply lookup_insert_eq].
  unfold log, ret. cbn. by rewrite <- app_assoc.
Qed.

Lemma process_file_skipped now r f S ok sk w :
  fetched_rows r f = None →
  interrupted r f = false →
  process_file now r f (S, ok, sk) w
  = (Ok (S, ok, Datatypes.S sk),
     mk_world (state_file w) (data_dir w) (<[f := raw_left r f]> (raw_dir w))
       (log_file w ++ [LogDownloading f; LogWarnFailed f])).
Proof.
  unfold fetched_rows, interrupted, raw_left. intros Hnone Hint.
  unfold process_file, bind, lift, try_exceptM.
  rewrite year_month_for_eq. unfold log at 1. unfold download_file.
  destruct (retr r f) as [[rows|]|partial|partial]; try done.
  - cbn [state_file data_dir raw_dir log_file].
    unfold append_raw_to_monthly. cbn [raw_dir]. rewrite lookup_insert_eq.
    unfold log, ret. cbn. by rewrite <- app_assoc.
  - unfold log, ret. cbn. by rewrite <- app_assoc.
Qed.

Lemma process_file_interrupted now r f S ok sk w :
  interrupted r f = true →
  process_file now r f (S, ok, sk) w
  = (Raise KeyboardInterrupt,
     mk_world (state_file w) (data_dir w) (<[f := raw_left r f]> (raw_dir w))
       (log_file w ++ [LogDownloading f])).
Proof.
  unfold interrupted, raw_left. intros Hint.
  unfold process_file, bind, lift, try_exceptM.
  rewrite year_month_for_eq. unfold log at 1. unfold download_file.
  destruct (retr r f) as [[rows|]|partial|partial]; done.
Qed.

Lemma process_files_app now r fs1 fs2 acc w :
  process_files now r (fs1 ++ fs2) acc w
  = (let* acc' := process_files now r fs1 acc in process_files now r fs2 acc') w.
Proof.
  revert acc w. induction fs1 as [|f fs1 IH]; intros acc w; simpl.
  - done.
  - unfold bind in *.
    destruct (process_file now r f acc w) as [[acc'|e] w']; [|done].
    by rewrite IH.
Qed.

Lemma fetched_rows_Some r f rows :
  fetched_rows r f = Some rows → retr r f = Fetched (Rows rows).
Proof.
  unfold fetched_rows. destruct (retr r f) as [[rows'|]|?|?]; try done.
  by intros [= ->].
Qed.


(** The loop when no transfer is interrupted: it ends normally, every file
    that was fetched and parsed is in the ledger and counted, every other
    file is counted as skipped, and the monthly files hold what the merges
    appended.  The ledger file is not touched. *)
Lemma process_files_completes now r fs :
  ∀ S ok sk w,
  (∀ f, f ∈ fs → interrupted r f = false) →
  ∃ S' ok' sk' w' lg,
    process_files now r fs (S, ok, sk) w = (Ok (S', ok', sk'), w')
    ∧ S' = list_to_set (merged_names r fs) ∪ S
    ∧ ok' = (ok + length (merged_names r fs))%nat
    ∧ sk' = (sk + length (filter (λ f, fetched_rows r f = None) fs))%nat
    ∧ state_file w' = state_file w
    ∧ data_dir w' = data_after now r fs (data_dir w)
    ∧ log_file w' = log_file w ++ lg
    ∧ (∀ g, LogDownloading g ∈ lg ↔ g ∈ fs).
Proof.
  induction fs as [|f fs IH]; intros S ok sk w Hint.
  - exists S, ok, sk, w, []. unfold merged_names. simpl. unfold ret.
    split_and!; [done | by rewrite (left_id_L ∅ (∪)) | lia | lia | done | done
                | by rewrite app_nil_r |].
    intros g. split; intros Hg; by apply not_elem_of_nil in Hg.
  - assert (Hf : interrupted r f = false) by (apply Hint; left).
    assert (Hfs : ∀ g, g ∈ fs → interrupted r g = false)
      by (intros g Hg; apply Hint; by right).
    cbn [process_files]. unfold bind at 1. unfold merged_names in *.
    destruct (fetched_rows r f) as [rows|] eqn:Hrows.
    + rewrite (process_file_merged now r f S ok sk w rows)
        by (by apply fetched_rows_Some).
      edestruct (IH ({[f]} ∪ S) (Datatypes.S ok) sk)
        as (S' & ok' & sk' & w' & lg & -> & -> & -> & -> & Hsf & Hd & Hlog & Hlg);
        [done|].
      do 4 eexists. exists ([LogDownloading f;
        LogMerged (month_path (partition_key now f)) (length (data_rows rows))] ++ lg).
      simpl in *.
      rewrite filter_cons_True by (by rewrite Hrows).
      rewrite filter_cons_False by (by rewrite Hrows; intros [=]).
      split_and!; [done | | simpl; lia | lia | done | | |].
      * rewrite list_to_set_cons. by rewrite (assoc_L (∪)), (comm_L (∪) _ {[f]}).
      * rewrite Hd. unfold data_after. simpl. by rewrite Hrows.
      * rewrite Hlog, <- app_assoc. reflexivity.
      * intros g. rewrite !elem_of_cons, Hlg. split.
        -- intros [[= ->]|[[=]|?]]; auto.
        -- intros [->|?]; auto.
    + rewrite (process_file_skipped now r f S ok sk w) by done.
      edestruct (IH S ok (Datatypes.S sk))
        as (S' & ok' & sk' & w' & lg & -> & -> & -> & -> & Hsf & Hd & Hlog & Hlg);
        [done|].
      do 4 eexists. exists ([LogDownloading f; LogWarnFailed f] ++ lg).
      simpl in *.
      rewrite filter_cons_False by (rewrite Hrows; by intros [? [=]]).
      rewrite filter_cons_True by (by rewrite Hrows).
      split_and!; [done | done | lia | simpl; lia | done | | |].
      * rewrite Hd. unfold data_after. simpl. by rewrite Hrows.
      * rewrite Hlog, <- app_assoc. reflexivity.
      * intros g. rewrite !elem_of_cons, Hlg. split.
        -- intros [[= ->]|[[=]|?]]; auto.
        -- intros [->|?]; auto.
Qed.

(** The loop when a transfer is interrupted: the interruption leaves the
    loop, after the merges of the files before it. *)
Lemma process_files_interrupted now r pre g post :
  ∀ S ok sk w,
  (∀ f, f ∈ pre → interrupted r f = false) →
  interrupted r g = true →
  ∃ w', process_files now r (pre ++ g :: post) (S, ok, sk) w = (Raise KeyboardInterrupt, w')
    ∧ state_file w' = state_file w
    ∧ data_dir w' = data_after now r pre (data_dir w).
Proof.
  intros S ok sk w Hpre Hg. rewrite process_files_app. unfold bind.
  destruct (process_files_completes now r pre S ok sk w Hpre)
    as (S1 & ok1 & sk1 & w1 & lg & -> & _ & _ & _ & Hsf & Hd & _).
  cbn [process_files]. unfold bind at 1. rewrite process_file_interrupted by done.
  eexists. split; [reflexivity|]. simpl. done.
Qed.

Lemma first_interrupted r fs :
  (∃ f, f ∈ fs ∧ interrupted r f = true) →
  ∃ pre g post, fs = pre ++ g :: post
    ∧ (∀ f, f ∈ pre → interrupted r f = false) ∧ interrupted r g = true.
Proof.
  induction fs as [|f fs IH]; intros (g & Hg & Hint).
  - by apply not_elem_of_nil in Hg.
  - destruct (interrupted r f) eqn:Hf.
    + exists [], f, fs. split_and!; try done.
      intros ? []%not_elem_of_nil.
    + apply elem_of_cons in Hg as [->|Hg]; [congruence|].
      destruct IH as (pre & g' & post & -> & Hpre & Hg'); [eauto|].
      exists (f :: pre), g', post. split_and!; try done.
      intros x [->|?]%elem_of_cons; auto.
Qed.

(** ** The orchestrator, step by step *)

Lemma filterR_file_in_scope cfg l :
  filterR (file_in_scope cfg) l = Ok (filter (λ f, file_in_scope cfg f = Ok true) l).
Proof.
  induction l as [|f l IH]; [done|].
  cbn [filterR]. rewrite IH, file_in_scope_eq. cbn [rbind].
  destruct (match timestamp f with
            | Some t => date_leb (start_from_date cfg) (date_of t)
            | None => false
            end) eqn:Hf.
  - rewrite filter_cons_True; [done|]. by rewrite file_in_scope_eq, Hf.
  - rewrite filter_cons_False; [done|]. rewrite file_in_scope_eq, Hf. by intros [=].
Qed.

Lemma connect_loop_spec r total fuel :
  ∀ attempt, ∃ res lg,
    (res = Ok tt ∨ res = Raise (Exc RuntimeError))
    ∧ ∀ w, connect_loop r total attempt fuel w = (res, add_log w lg).
Proof.
  induction fuel as [|fuel IH]; intros attempt.
  - exists (Raise (Exc RuntimeError)), []. split; [by right|].
    intros w. unfold add_log. rewrite app_nil_r. by destruct w.
  - cbn [connect_loop]. destruct (connect_ok r attempt) eqn:Hok.
    + exists (Ok tt), [LogConnecting attempt total]. split; [by left|]. done.
    + destruct (IH (S attempt)) as (res & lg & Hres & Hrun).
      exists res, ([LogConnecting attempt total; LogConnectFailed] ++ lg).
      split; [done|]. intros w. unfold bind, log. rewrite Hrun.
      unfold add_log. cbn. by rewrite <- !app_assoc.
Qed.

Lemma ftp_connect_spec cfg r :
  ∃ res lg,
    (res = Ok tt ∨ res = Raise (Exc RuntimeError))
    ∧ ∀ w, ftp_connect cfg r w = (res, add_log w lg).
Proof.
  unfold ftp_connect.
  destruct (_ || _).
  - exists (Raise (Exc RuntimeError)), []. split; [by right|].
    intros w. unfold add_log, raise. rewrite app_nil_r. by destruct w.
  - apply connect_loop_spec.
Qed.

(** [sync] once the listing is known: the scope, the rebuild step, then
    either an early return or the loop from the world the rebuild step
    leaves. *)
Lemma sync_listed cfg now r S w names :
  list_remote_csv r w = (Ok names, w) →
  ∃ wc, clear_target_month_files_if_rebuild cfg now (scope_of cfg names) w = (Ok tt, wc)
    ∧ sync cfg now r S w
      = match scope_of cfg names with
        | [] => log LogNoScope w
        | _ => match new_files_of cfg names S with
               | [] => log LogNoDiff wc
               | _ => merge_new_files now r (new_files_of cfg names S) S wc
               end
        end.
Proof.
  intros Hlist.
  destruct (clear_target_month_files_spec cfg now (scope_of cfg names) w)
    as (wc & Hclear & _).
  exists wc. split; [done|].
  unfold sync. unfold bind at 1. rewrite Hlist.
  unfold bind at 1. unfold lift at 1. rewrite filterR_file_in_scope.
  fold (scope_of cfg names). unfold new_files_of.
  destruct (scope_of cfg names) as [|f scope] eqn:Hscope; [done|].
  unfold bind at 1. rewrite Hclear.
  by destruct (filter (λ f0 : string, f0 ∉ S) (f :: scope)).
Qed.

Lemma list_remote_csv_world r :
  (∃ names, ∀ w', list_remote_csv r w' = (Ok names, w'))
  ∨ (∃ e, ∀ w', list_remote_csv r w' = (Raise e, w')).
Proof.
  unfold list_remote_csv, lift. destruct (nlst r) as [names|e]; simpl; eauto.
Qed.

(** The loop and the save, when no transfer is interrupted. *)
Lemma merge_new_files_completes now r nf S w :
  (∀ f, f ∈ nf → interrupted r f = false) →
  ∃ w',
    merge_new_files now r nf S w = (Ok tt, w')
    ∧ state_file w' = Json (JArray (sorted (elements (list_to_set (merged_names r nf) ∪ S))))
    ∧ data_dir w' = data_after now r nf (data_dir w)
    ∧ (∃ lg, log_file w'
             = log_file w ++ lg
               ++ [LogEnd (length (merged_names r nf))
                          (length (filter (λ f, fetched_rows r f = None) nf))]
             ∧ ∀ g, LogDownloading g ∈ lg ↔ g ∈ nf).
Proof.
  intros Hint. unfold merge_new_files. unfold bind at 1.
  destruct (process_files_completes now r nf S 0%nat 0%nat w Hint)
    as (S' & ok' & sk' & w1 & lg & -> & -> & -> & -> & Hsf & Hd & Hlog & Hlg).
  unfold bind, save_state, log. cbn.
  eexists. split; [reflexivity|]. cbn.
  split_and!; [| done |].
  - do 2 f_equal. apply sorted_perm. by rewrite list_to_set_elements_L.
  - exists lg. rewrite Hlog, <- app_assoc. done.
Qed.

(** The loop, when a transfer is interrupted: the exception leaves it before
    the save. *)
Lemma merge_new_files_interrupted now r nf S w :
  (∃ f, f ∈ nf ∧ interrupted r f = true) →
  ∃ pre g post w',
    nf = pre ++ g :: post
    ∧ (∀ f, f ∈ pre → interrupted r f = false) ∧ interrupted r g = true
    ∧ merge_new_files now r nf S w = (Raise KeyboardInterrupt, w')
    ∧ state_file w' = state_file w
    ∧ data_dir w' = data_after now r pre (data_dir w).
Proof.
  intros Hex. destruct (first_interrupted r nf Hex) as (pre & g & post & -> & Hpre & Hg).
  destruct (process_files_interrupted now r pre g post S 0%nat 0%nat w Hpre Hg)
    as (w' & Hrun & Hsf & Hd).
  exists pre, g, post, w'. split_and!; try done.
  unfold merge_new_files, bind. by rewrite Hrun.
Qed.

Lemma main_unfold cfg now r w :
  main cfg now r w
  = main_handlers
      (ftp_connect cfg r >>> sync cfg now r (list_to_set (ledger_names (state_file w))))
      (add_log w [LogStart]).
Proof.
  unfold main. unfold bind at 1. unfold log at 1. fold (add_log w [LogStart]).
  unfold bind at 1. rewrite load_state_eq. done.
Qed.

Lemma ftp_connect_frame cfg r w w0 :
  ftp_connect cfg r w = (Ok tt, w0) →
  state_file w0 = state_file w ∧ data_dir w0 = data_dir w ∧ raw_dir w0 = raw_dir w
  ∧ ∀ w', ∃ w0', ftp_connect cfg r w' = (Ok tt, w0')
          ∧ state_file w0' = state_file w' ∧ data_dir w0' = data_dir w'.
Proof.
  destruct (ftp_connect_spec cfg r) as (res & lg & _ & Hrun).
  rewrite Hrun. intros [= -> <-]. split_and!; try done.
  intros w'. exists (add_log w' lg). by rewrite Hrun.
Qed.

Lemma main_after_connect cfg now r w w0 :
  ftp_connect cfg r (add_log w [LogStart]) = (Ok tt, w0) →
  main cfg now r w
  = main_handlers (sync cfg now r (list_to_set (ledger_names (state_file w)))) w0
  ∧ state_file w0 = state_file w ∧ data_dir w0 = data_dir w.
Proof.
  intros Hc. rewrite main_unfold. unfold main_handlers, bind. rewrite Hc.
  destruct (ftp_connect_frame _ _ _ _ Hc) as (Hsf & Hd & _). done.
Qed.

Lemma data_after_cons now r f fs d :
  data_after now r (f :: fs) d
  = data_after now r fs
      match fetched_rows r f with
      | Some rows => merge_rows rows (month_path (partition_key now f)) d
      | None => d
      end.
Proof. reflexivity. Qed.

Lemma part_of_data_after now r fs p :
  ∀ d, ∃ ext, rows_at (data_after now r fs d) p = rows_at d p ++ ext.
Proof.
  induction fs as [|f fs IH]; intros d.
  - exists []. by rewrite app_nil_r.
  - rewrite data_after_cons.
    destruct (fetched_rows r f) as [rows|]; [|apply IH].
    edestruct IH as (ext & ->).
    unfold merge_rows. destruct rows as [|header rest]; [by eexists|].
    unfold rows_at.
    destruct (decide (month_path (partition_key now f) = p)) as [->|Hne].
    + rewrite lookup_insert_eq. destruct (d !! p) as [old|]; simpl.
      * rewrite <- app_assoc. by eexists.
      * by eexists.
    + rewrite lookup_insert_ne by done. by eexists.
Qed.

(** A file that the loop fetches and parses has its data rows appended to
    its monthly file, after what the file held when the loop began. *)
Lemma data_after_appends now r fs f rows d :
  f ∈ fs → fetched_rows r f = Some rows →
  ∃ a b, rows_at (data_after now r fs d) (month_path (partition_key now f))
         = rows_at d (month_path (partition_key now f)) ++ a ++ data_rows rows ++ b.
Proof.
  revert d. induction fs as [|g fs IH]; intros d Hf Hrows.
  - by apply not_elem_of_nil in Hf.
  - apply elem_of_cons in Hf as [<-|Hf].
    + rewrite data_after_cons, Hrows.
      edestruct (part_of_data_after now r fs) as (ext & ->).
      unfold merge_rows. destruct rows as [|header rest].
      * exists [], ext. done.
      * unfold rows_at. rewrite lookup_insert_eq.
        destruct (d !! month_path (partition_key now f)) as [old|]; simpl.
        -- exists [], ext. by rewrite <- app_assoc.
        -- exists [header], ext. done.
    + rewrite data_after_cons.
      destruct (fetched_rows r g) as [rows'|]; [|by apply IH].
      destruct (IH (merge_rows rows' (month_path (partition_key now g)) d) Hf Hrows)
        as (a & b & ->).
      unfold merge_rows. destruct rows' as [|header rest]; [by eexists _, _|].
      unfold rows_at.
      destruct (decide (month_path (partition_key now g) = month_path (partition_key now f)))
        as [->|Hne].
      * rewrite lookup_insert_eq.
        destruct (d !! month_path (partition_key now f)) as [old|]; simpl.
        -- exists (data_rows (header :: rest) ++ a), b. by rewrite <- !app_assoc.
        -- exists (header :: data_rows (header :: rest) ++ a), b.
           simpl. by rewrite <- !app_assoc.
      * rewrite lookup_insert_ne by done. by eexists _, _.
Qed.

(** The loop leaves alone every monthly file that is not the partition of
    one of its files. *)
Lemma data_after_other now r fs p d :
  (∀ g, g ∈ fs → month_path (partition_key now g) ≠ p) →
  data_after now r fs d !! p = d !! p.
Proof.
  revert d. induction fs as [|g fs IH]; intros d Hp; [done|].
  rewrite data_after_cons.
  rewrite IH by (intros h Hh; apply Hp; by right).
  destruct (fetched_rows r g) as [rows|]; [|done].
  unfold merge_rows. destruct rows; [done|].
  rewrite lookup_insert_ne; [done|]. apply Hp. by left.
Qed.

(** Nothing is appended when no file is fetched and parsed. *)
Lemma data_after_none now r fs d :
  (∀ g, g ∈ fs → fetched_rows r g = None) → data_after now r fs d = d.
Proof.
  revert d. induction fs as [|g fs IH]; intros d Hn; [done|].
  rewrite data_after_cons.
  rewrite (Hn g) by (by left). apply IH. intros h Hh. apply Hn. by right.
Qed.

(** The loop asks the server only about its own files. *)
Lemma process_files_ext now r r' fs :
  (∀ f, f ∈ fs → retr r' f = retr r f) →
  ∀ acc w, process_files now r' fs acc w = process_files now r fs acc w.
Proof.
  induction fs as [|f fs IH]; intros Hr acc w; [done|].
  cbn [process_files]. unfold bind.
  assert (process_file now r' f acc w = process_file now r f acc w) as ->.
  { destruct acc as [[S ok] sk]. unfold process_file, bind, try_exceptM, download_file.
    rewrite (Hr f) by (by left). done. }
  destruct (process_file now r f acc w) as [[acc'|e] w']; [|done].
  apply IH. intros g Hg. apply Hr. by right.
Qed.

(** ** Rebuild mode *)

(** C7. With rebuild mode enabled, the rebuild step deletes the monthly file
    of every partition key derived from a name in scope, leaves every other
    monthly file as it was, and the rest of the run (the diff against the
    ledger and every merge) starts from the world this step leaves. *)
Theorem rebuild_clears_scope_months_only (cfg : config) (now : datetime) (r : remote)
    (state_set : gset string) (names : list string) (w : world) :
  rebuild_months cfg = true →
  list_remote_csv r w = (Ok names, w) →
  scope_of cfg names ≠ [] →
  ∃ wc,
    clear_target_month_files_if_rebuild cfg now (scope_of cfg names) w = (Ok tt, wc)
    ∧ (∀ f ym, f ∈ scope_of cfg names → year_month_for now f = Ok ym →
               data_dir wc !! month_path ym = None)
    ∧ (∀ p, (∀ f ym, f ∈ scope_of cfg names → year_month_for now f = Ok ym →
                     p ≠ month_path ym) →
            data_dir wc !! p = data_dir w !! p)
    ∧ sync cfg now r state_set w
      = match new_files_of cfg names state_set with
        | [] => log LogNoDiff wc
        | _ => merge_new_files now r (new_files_of cfg names state_set) state_set wc
        end.
Proof.
  intros Hrebuild Hlist Hscope.
  destruct (sync_listed cfg now r state_set w names Hlist) as (wc & Hclear & Hsync).
  destruct (clear_target_month_files_spec cfg now (scope_of cfg names) w)
    as (wc' & Hclear' & _ & _ & Hdata & _).
  rewrite Hclear in Hclear'. injection Hclear' as <-.
  exists wc. rewrite Hrebuild in Hdata. split_and!; [done | | |].
  - intros f ym Hf Hym. rewrite year_month_for_eq in Hym. injection Hym as <-.
    rewrite Hdata, bool_decide_eq_true_2; [done|].
    apply list_elem_of_fmap. by exists f.
  - intros p Hp. rewrite Hdata, bool_decide_eq_false_2; [done|].
    intros (f & -> & Hf)%list_elem_of_fmap.
    by apply (Hp f (partition_key now f) Hf (year_month_for_eq now f)).
  - rewrite Hsync. by destruct (scope_of cfg names).
Qed.

(** ** Failure isolation *)





(** ** The whole run *)

Lemma interrupts_dec r (fs : list string) :
  (∀ f, f ∈ fs → interrupted r f = false) ∨ (∃ f, f ∈ fs ∧ interrupted r f = true).
Proof.
  induction fs as [|f fs [IH|(g & Hg & Hi)]].
  - left. intros f []%not_elem_of_nil.
  - destruct (interrupted r f) eqn:Hf.
    + right. exists f. split; [by left | done].
    + left. intros g [->|?]%elem_of_cons; auto.
  - right. exists g. split; [by right | done].
Qed.

(** The four ways a run that connects and obtains the listing can go: no
    name in scope; no new file; the loop completes and the ledger is saved;
    a transfer is interrupted.  [wc] is the world after the rebuild step. *)
Lemma main_run cfg now r w w0 names :
  reaches_listing cfg r w w0 names →
  let state_set : gset string := list_to_set (ledger_names (state_file w)) in
  let nf := new_files_of cfg names state_set in
  ∃ wc,
    clear_target_month_files_if_rebuild cfg now (scope_of cfg names) w0 = (Ok tt, wc)
    ∧ state_file wc = state_file w
    ∧ (∀ p, data_dir wc !! p
            = if rebuild_months cfg && bool_decide (p ∈ scope_paths cfg now names)
              then None else data_dir w !! p)
    ∧ ((scope_of cfg names = []
        ∧ main cfg now r w = (Ok tt, add_log w0 [LogNoScope]))
       ∨ (scope_of cfg names ≠ [] ∧ nf = []
          ∧ main cfg now r w = (Ok tt, add_log wc [LogNoDiff]))
       ∨ (nf ≠ [] ∧ (∀ f, f ∈ nf → interrupted r f = false)
          ∧ ∃ w' lg,
              main cfg now r w = (Ok tt, w')
              ∧ state_file w'
                = Json (JArray (sorted (elements (list_to_set (merged_names r nf) ∪ state_set))))
              ∧ data_dir w' = data_after now r nf (data_dir wc)
              ∧ log_file w'
                = log_file wc ++ lg
                  ++ [LogEnd (length (merged_names r nf))
                             (length (filter (λ f, fetched_rows r f = None) nf))]
              ∧ ∀ g, LogDownloading g ∈ lg ↔ g ∈ nf)
       ∨ (∃ pre g post w',
            nf = pre ++ g :: post
            ∧ (∀ f, f ∈ pre → interrupted r f = false) ∧ interrupted r g = true
            ∧ main cfg now r w = (Ok tt, add_log w' [LogInterrupted])
            ∧ state_file w' = state_file w
            ∧ data_dir w' = data_after now r pre (data_dir wc))).
Proof.
  intros [Hconn Hlist] state_set nf.
  destruct (main_after_connect cfg now r w w0 Hconn) as (Hmain & Hsf0 & Hd0).
  destruct (sync_listed cfg now r state_set w0 names Hlist) as (wc & Hclear & Hsync).
  destruct (clear_target_month_files_spec cfg now (scope_of cfg names) w0)
    as (wc' & Hclear' & Hsfc & _ & Hdc & _).
  rewrite Hclear in Hclear'. injection Hclear' as <-.
  exists wc. split_and!; [done | congruence | |].
  { intros p. rewrite Hdc, Hd0. done. }
  rewrite Hmain. unfold main_handlers. fold state_set. rewrite Hsync. fold nf.
  destruct (scope_of cfg names) as [|f0 scope] eqn:Hscope.
  { left. done. }
  right. destruct nf as [|f1 nf'] eqn:Hnf.
  { left. done. }
  right. rewrite <- Hnf.
  destruct (interrupts_dec r nf) as [Hnone|Hsome].
  - left. split; [by rewrite Hnf|]. split; [done|].
    destruct (merge_new_files_completes now r nf state_set wc Hnone)
      as (w' & Hrun & Hsf & Hd & lg & Hlog & Hlg).
    exists w', lg. rewrite Hrun. done.
  - right.
    destruct (merge_new_files_interrupted now r nf state_set wc Hsome)
      as (pre & g & post & w' & Hsplit & Hpre & Hg & Hrun & Hsf & Hd).
    exists pre, g, post, w'. rewrite Hrun. split_and!; try done. congruence.
Qed.

Lemma connect_loop_replace_answer r f c total fuel :
  ∀ attempt w,
    connect_loop (replace_answer r f c) total attempt fuel w
    = connect_loop r total attempt fuel w.
Proof.
  induction fuel as [|fuel IH]; intros attempt w; [done|].
  cbn [connect_loop]. unfold bind. destruct (log _ w) as [[[]|e] w1]; [|done].
  cbn [connect_ok replace_answer]. destruct (connect_ok r attempt); [done|].
  destruct (log _ w1) as [[[]|e] w2]; [|done]. apply IH.
Qed.

Lemma data_after_lookup_ext now r fs p :
  ∀ d1 d2, d1 !! p = d2 !! p →
  data_after now r fs d1 !! p = data_after now r fs d2 !! p.
Proof.
  induction fs as [|g fs IH]; intros d1 d2 Hd; [done|].
  rewrite !data_after_cons. apply IH.
  destruct (fetched_rows r g) as [rows|]; [|done].
  unfold merge_rows. destruct rows as [|header rest]; [done|].
  destruct (decide (month_path (partition_key now g) = p)) as [->|Hne].
  - rewrite !lookup_insert_eq. by rewrite Hd.
  - by rewrite !lookup_insert_ne.
Qed.

(** C9. With rebuild mode enabled, a name that is in scope and already in
    the loaded ledger has its monthly file deleted by the rebuild step, is
    not among the new files, and is never fetched: the run is the same
    whatever the server would answer for it.  After the run its monthly file
    holds only what the new files of the run contributed (the rows that
    merging some first files of the loop into an empty directory gives), and
    does not exist when no new file belongs to that month. *)
Theorem rebuild_loses_ledgered_rows (cfg : config) (now : datetime) (r : remote)
    (w w0 : world) (names : list string) (f : string) :
  rebuild_months cfg = true →
  reaches_listing cfg r w w0 names →
  f ∈ scope_of cfg names →
  (∃ state, load_state w = (Ok state, w) ∧ f ∈ state) →
  let state_set : gset string := list_to_set (ledger_names (state_file w)) in
  let nf := new_files_of cfg names state_set in
  let p := month_path (partition_key now f) in
  ∃ wc,
    clear_target_month_files_if_rebuild cfg now (scope_of cfg names) w0 = (Ok tt, wc)
    ∧ data_dir wc !! p = None
    ∧ (f ∉ nf)
    ∧ (∀ c, main cfg now (replace_answer r f c) w = main cfg now r w)
    ∧ (∀ res w', main cfg now r w = (res, w') →
         (∃ fs, fs `prefix_of` nf ∧ data_dir w' !! p = data_after now r fs ∅ !! p)
         ∧ ((∀ g, g ∈ nf → month_path (partition_key now g) ≠ p) →
            data_dir w' !! p = None)).
Proof.
  intros Hrebuild Hreach Hscope (state & Hload & Hstate). cbv zeta.
  rewrite load_state_eq in Hload. injection Hload as <-.
  destruct (main_run cfg now r w w0 names Hreach) as (wc & Hclear & Hsfc & Hdc & Hcases).
  cbv zeta in Hcases.
  remember (list_to_set (ledger_names (state_file w)) : gset string) as state_set eqn:HS.
  remember (new_files_of cfg names state_set) as nf eqn:Hnfdef.
  set (p := month_path (partition_key now f)).
  assert (Hnf : f ∉ nf).
  { rewrite Hnfdef. unfold new_files_of. rewrite list_elem_of_filter. intros [Hout _].
    apply Hout. rewrite HS. by apply elem_of_list_to_set. }
  assert (Hgone : data_dir wc !! p = None).
  { rewrite Hdc, Hrebuild, bool_decide_eq_true_2; [done|].
    apply list_elem_of_fmap. by exists f. }
  assert (Hfinal : ∀ res w', main cfg now r w = (res, w') →
            ∃ fs, fs `prefix_of` nf ∧ data_dir w' = data_after now r fs (data_dir wc)).
  { intros res w' Hmain.
    destruct Hcases as [[Hnil _] | [(_ & Hnil & Hrun) | [(_ & _ & w1 & lg & Hrun & _ & Hd & _)
      | (pre & g & post & w1 & Hsplit & _ & _ & Hrun & _ & Hd)]]].
    - rewrite Hnil in Hscope. by apply not_elem_of_nil in Hscope.
    - rewrite Hrun in Hmain. injection Hmain as <- <-.
      exists []. split; [apply prefix_nil | done].
    - rewrite Hrun in Hmain. injection Hmain as <- <-.
      exists nf. split; [done|]. done.
    - rewrite Hrun in Hmain. injection Hmain as <- <-.
      exists pre. split; [|done]. rewrite Hsplit. by apply prefix_app_r. }
  exists wc. split_and!; [done | done | done | |].
  - intros c. destruct Hreach as [Hconn Hlist].
    assert (Hconn' : ftp_connect cfg (replace_answer r f c) (add_log w [LogStart]) = (Ok tt, w0)).
    { rewrite <- Hconn. unfold ftp_connect. destruct (_ || _); [done|].
      apply connect_loop_replace_answer. }
    destruct (main_after_connect _ now _ _ _ Hconn) as (-> & _).
    destruct (main_after_connect _ now _ _ _ Hconn') as (-> & _).
    rewrite <- HS. unfold main_handlers.
    destruct (sync_listed cfg now r state_set w0 names Hlist) as (wc1 & Hc1 & ->).
    destruct (sync_listed cfg now (replace_answer r f c) state_set w0 names Hlist)
      as (wc2 & Hc2 & ->).
    rewrite Hc1 in Hc2. injection Hc2 as <-.
    destruct (scope_of cfg names); [done|].
    rewrite <- Hnfdef.
    assert (Hm : merge_new_files now (replace_answer r f c) nf state_set wc1
                 = merge_new_files now r nf state_set wc1).
    { unfold merge_new_files, bind.
      rewrite (process_files_ext now r (replace_answer r f c) nf); [done|].
      intros g Hg. cbn. rewrite bool_decide_eq_false_2; [done|]. by intros ->. }
    destruct nf; [done|]. by rewrite Hm.
  - intros res w' Hmain. destruct (Hfinal res w' Hmain) as (fs & Hfs & Hd). split.
    + exists fs. split; [done|]. rewrite Hd.
      apply data_after_lookup_ext. by rewrite Hgone, lookup_empty.
    + intros Hother. rewrite Hd, data_after_other; [done|].
      intros g Hg. apply Hother. destruct Hfs as [rest ->].
      apply elem_of_app. by left.
Qed.

(** ** Interrupted runs *)

(** C10. When a transfer in the loop is interrupted, [main] returns normally
    and reports the interruption, and the ledger file is what it was before
    the run: [save_state] is not reached.  The files merged before the
    interruption had their data rows appended, and they are new files again
    for the next run over the same listing: a next run that is not
    interrupted downloads each of them and, when the server delivers the same
    rows, appends their data rows once more (to what the first run left, when
    rebuild mode is off). *)
Theorem interrupted_run_keeps_ledger (cfg : config) (now : datetime) (r : remote)
    (w w0 : world) (names : list string) :
  reaches_listing cfg r w w0 names →
  (∃ f, f ∈ new_files_of cfg names (list_to_set (ledger_names (state_file w)))
        ∧ interrupted r f = true) →
  ∃ wc w1 pre g post,
    new_files_of cfg names (list_to_set (ledger_names (state_file w))) = pre ++ g :: post
    ∧ (∀ f, f ∈ pre → interrupted r f = false) ∧ interrupted r g = true
    ∧ clear_target_month_files_if_rebuild cfg now (scope_of cfg names) w0 = (Ok tt, wc)
    ∧ main cfg now r w = (Ok tt, w1)
    ∧ last (log_file w1) = Some LogInterrupted
    ∧ state_file w1 = state_file w
    ∧ (∀ f rows, f ∈ pre → fetched_rows r f = Some rows →
         ∃ a b, rows_at (data_dir w1) (month_path (partition_key now f))
                = rows_at (data_dir wc) (month_path (partition_key now f))
                  ++ a ++ data_rows rows ++ b)
    ∧ ∀ now2 r2 w1a,
        reaches_listing cfg r2 w1 w1a names →
        (∀ h, h ∈ pre ++ g :: post → interrupted r2 h = false) →
        ∃ wc2 w2 lg ok skipped,
          clear_target_month_files_if_rebuild cfg now2 (scope_of cfg names) w1a = (Ok tt, wc2)
          ∧ (rebuild_months cfg = false → data_dir wc2 = data_dir w1)
          ∧ main cfg now2 r2 w1 = (Ok tt, w2)
          ∧ log_file w2 = log_file wc2 ++ lg ++ [LogEnd ok skipped]
          ∧ ∀ f rows, f ∈ pre → fetched_rows r f = Some rows →
              LogDownloading f ∈ lg
              ∧ (fetched_rows r2 f = Some rows →
                 ∃ a b, rows_at (data_dir w2) (month_path (partition_key now2 f))
                        = rows_at (data_dir wc2) (month_path (partition_key now2 f))
                          ++ a ++ data_rows rows ++ b).
Proof.
  intros Hreach (fi & Hfi & Hint).
  destruct (main_run cfg now r w w0 names Hreach) as (wc & Hclear & Hsfc & Hdc & Hcases).
  cbv zeta in Hcases.
  remember (new_files_of cfg names (list_to_set (ledger_names (state_file w)))) as nf eqn:Hnf.
  destruct Hcases as [[Hnil _] | [(_ & Hnil & _) | [(_ & Hnone & _)
    | (pre & g & post & w' & Hsplit & Hpre & Hg & Hrun & Hsf & Hd)]]].
  { rewrite Hnf in Hfi. unfold new_files_of in Hfi. rewrite Hnil in Hfi.
    by apply not_elem_of_nil in Hfi. }
  { rewrite Hnil in Hfi. by apply not_elem_of_nil in Hfi. }
  { rewrite (Hnone fi Hfi) in Hint. done. }
  exists wc, (add_log w' [LogInterrupted]), pre, g, post.
  split_and!; [done | done | done | done | done | apply last_snoc | done | |].
  - intros f rows Hf Hrows. cbn [add_log data_dir]. rewrite Hd.
    by apply data_after_appends.
  - intros now2 r2 w1a Hreach2 Hnone2.
    destruct (main_run cfg now2 r2 _ w1a names Hreach2)
      as (wc2 & Hclear2 & Hsfc2 & Hdc2 & Hcases2).
    cbv zeta in Hcases2. cbn [add_log state_file data_dir] in Hcases2, Hdc2.
    rewrite Hsf, <- Hnf in Hcases2.
    assert (Hne : nf ≠ []) by (rewrite Hsplit; by destruct pre).
    destruct Hcases2 as [[Hnil _] | [(_ & Hnil & _) | [(_ & _ & w2 & lg & Hrun2 & _ & Hd2 & Hlog2 & Hlg2)
      | (pre2 & g2 & post2 & w2 & Hsplit2 & _ & Hg2 & _)]]].
    { exfalso. apply Hne. rewrite Hnf. unfold new_files_of. by rewrite Hnil. }
    { done. }
    2:{ exfalso. rewrite Hnone2 in Hg2; [done|]. rewrite <- Hsplit, Hsplit2.
        apply elem_of_app. right. by left. }
    exists wc2, w2, lg. do 2 eexists.
    split_and!; [done | | done | done |].
    + intros Hoff. apply map_eq. intros q. rewrite Hdc2, Hoff. done.
    + intros f rows Hf Hrows.
      assert (Hfnf : f ∈ nf) by (rewrite Hsplit; apply elem_of_app; by left).
      split; [by apply Hlg2|].
      intros Hrows2. rewrite Hd2. by apply data_after_appends.
Qed.

(** ** Idempotence *)

Lemma reaches_listing_frame cfg r w w0 names :
  reaches_listing cfg r w w0 names →
  state_file w0 = state_file w ∧ data_dir w0 = data_dir w
  ∧ ∀ w', ∃ w0', reaches_listing cfg r w' w0' names.
Proof.
  intros [Hconn Hlist].
  destruct (ftp_connect_frame _ _ _ _ Hconn) as (Hsf & Hd & _ & Hany).
  split_and!; [done | done |].
  intros w'. destruct (Hany (add_log w' [LogStart])) as (w0' & Hconn' & _).
  exists w0'. split; [done|].
  destruct (list_remote_csv_world r) as [[names' Hl] | [e Hl]].
  - rewrite Hl in Hlist. injection Hlist as <-. apply Hl.
  - rewrite Hl in Hlist. done.
Qed.

(** A run either connects and obtains the listing, or ends with an
    exception, or ends with the report of an interruption. *)
Lemma main_reaches cfg now r w :
  (∃ w0 names, reaches_listing cfg r w w0 names)
  ∨ (∃ e w', main cfg now r w = (Raise e, w'))
  ∨ (∃ w', main cfg now r w = (Ok tt, add_log w' [LogInterrupted])).
Proof.
  destruct (ftp_connect_spec cfg r) as (res & lg & [-> | ->] & Hconn).
  - destruct (list_remote_csv_world r) as [[names Hl] | [e Hl]].
    + left. exists (add_log (add_log w [LogStart]) lg), names. split; [apply Hconn | apply Hl].
    + right. destruct (main_after_connect cfg now r w _ (Hconn _)) as (-> & _).
      assert (Hs : ∀ S w', sync cfg now r S w' = (Raise e, w'))
        by (intros S w'; unfold sync, bind; by rewrite Hl).
      unfold main_handlers. rewrite Hs.
      destruct e as [e|].
      * left. unfold bind, log, raise. by eexists _, _.
      * right. by eexists.
  - right. left. rewrite main_unfold. unfold main_handlers, bind. rewrite Hconn.
    unfold log, raise. by eexists _, _.
Qed.

Lemma list_to_set_sorted_elements (X : gset string) :
  (list_to_set (sorted (elements X)) : gset string) = X.
Proof.
  apply set_eq. intros x.
  by rewrite elem_of_list_to_set, elem_of_sorted, elem_of_elements.
Qed.

Lemma merged_names_none r (fs : list string) :
  (∀ g, g ∈ fs → fetched_rows r g = None) → merged_names r fs = [].
Proof.
  intros Hn. unfold merged_names. induction fs as [|g fs IH]; [done|].
  rewrite filter_cons_False.
  - apply IH. intros h Hh. apply Hn. by right.
  - rewrite (Hn g) by (by left). by intros [? [=]].
Qed.

(** C1. After a run that ended without interruption or error, a second run
    against the same server ends normally, appends no row to any monthly
    file (every monthly file it leaves has exactly the rows the first run
    left; with rebuild mode off the [data/] directory is the same) and
    leaves the ledger file with the same content. *)
Theorem main_idempotent (cfg : config) (now now2 : datetime) (r : remote) (w w1 : world) :
  main cfg now r w = (Ok tt, w1) →
  run_succeeded w1 →
  ∃ w2,
    main cfg now2 r w1 = (Ok tt, w2)
    ∧ state_file w2 = state_file w1
    ∧ (∀ p rows, data_dir w2 !! p = Some rows → data_dir w1 !! p = Some rows)
    ∧ (rebuild_months cfg = false → data_dir w2 = data_dir w1).
Proof.
  intros Hmain Hok.
  destruct (main_reaches cfg now r w) as [(w0 & names & Hreach) | [(e & w' & Hr) | (w' & Hr)]].
  2:{ rewrite Hr in Hmain. done. }
  2:{ rewrite Hr in Hmain. injection Hmain as <-.
      unfold run_succeeded in Hok. cbn [add_log log_file] in Hok.
      by rewrite last_snoc in Hok. }
  destruct (reaches_listing_frame _ _ _ _ _ Hreach) as (Hsf0 & Hd0 & Hany).
  destruct (Hany w1) as (w0' & Hreach').
  destruct (reaches_listing_frame _ _ _ _ _ Hreach') as (Hsf0' & Hd0' & _).
  destruct (main_run cfg now r w w0 names Hreach) as (wc & Hclear & Hsfc & Hdc & Hcases).
  destruct (main_run cfg now2 r w1 w0' names Hreach')
    as (wc2 & Hclear2 & Hsfc2 & Hdc2 & Hcases2).
  cbv zeta in Hcases, Hcases2.
  (* what the rebuild step of the second run leaves *)
  assert (Hkeep : ∀ p rows, data_dir wc2 !! p = Some rows → data_dir w1 !! p = Some rows).
  { intros p rows. rewrite Hdc2. by destruct (_ && _). }
  assert (Hoff : rebuild_months cfg = false → data_dir wc2 = data_dir w1).
  { intros Hrb. apply map_eq. intros p. by rewrite Hdc2, Hrb. }
  remember (list_to_set (ledger_names (state_file w)) : gset string) as S1 eqn:HS1.
  remember (list_to_set (ledger_names (state_file w1)) : gset string) as S2 eqn:HS2.
  destruct Hcases as [[Hnil Hrun] | [(Hscope & Hnil & Hrun)
    | [(Hne & Hnone & w' & lg & Hrun & Hsf & Hd & _)
    | (pre & g & post & w' & _ & _ & _ & Hrun & _)]]].
  - (* no name in scope *)
    destruct Hcases2 as [[_ Hrun2] | [(Hscope2 & _) | [(Hne2 & _)
      | (pre & g & post & w' & Hsplit & _)]]].
    + exists (add_log w0' [LogNoScope]). split_and!; [done | done | |].
      * cbn [add_log data_dir]. by rewrite Hd0'.
      * intros _. cbn [add_log data_dir]. done.
    + done.
    + exfalso. apply Hne2. unfold new_files_of. by rewrite Hnil.
    + exfalso. unfold new_files_of in Hsplit. rewrite Hnil in Hsplit.
      by destruct pre.
  - (* no new file *)
    rewrite Hrun in Hmain. injection Hmain as <-.
    cbn [add_log state_file] in HS2. rewrite Hsfc, <- HS1 in HS2. subst S2.
    destruct Hcases2 as [[Hnil2 _] | [(_ & _ & Hrun2) | [(Hne2 & _)
      | (pre & g & post & w' & Hsplit & _)]]].
    + done.
    + exists (add_log wc2 [LogNoDiff]). split_and!; [done | done | done | done].
    + done.
    + rewrite Hnil in Hsplit. by destruct pre.
  - (* the loop completed *)
    rewrite Hrun in Hmain. injection Hmain as <-.
    rewrite Hsf in HS2. cbn [ledger_names] in HS2.
    rewrite list_to_set_sorted_elements in HS2.
    set (nf := new_files_of cfg names S1) in *.
    set (nf2 := new_files_of cfg names S2) in *.
    assert (Hnf2 : ∀ g, g ∈ nf2 → g ∈ nf ∧ fetched_rows r g = None).
    { intros g. unfold nf2, nf, new_files_of. rewrite !list_elem_of_filter.
      intros [Hout Hin]. rewrite HS2 in Hout. split.
      - split; [|done]. intros HgS. apply Hout. by apply elem_of_union_r.
      - destruct (fetched_rows r g) as [rows|] eqn:Hrows; [|done].
        exfalso. apply Hout. apply elem_of_union_l, elem_of_list_to_set.
        unfold merged_names. apply list_elem_of_filter. split; [by rewrite Hrows|].
        apply list_elem_of_filter. split; [|done].
        intros HgS. apply Hout. by apply elem_of_union_r. }
    destruct Hcases2 as [[Hnil2 _] | [(_ & Hnil2 & Hrun2)
      | [(_ & _ & w2 & lg2 & Hrun2 & Hsf2 & Hd2 & _)
      | (pre & g & post & w2 & Hsplit & _ & Hg & _)]]].
    + exfalso. apply Hne. unfold nf, new_files_of. by rewrite Hnil2.
    + exists (add_log wc2 [LogNoDiff]). split_and!; [done | done | done | done].
    + exists w2.
      assert (Hnone2 : ∀ g, g ∈ nf2 → fetched_rows r g = None)
        by (intros g Hg; by apply Hnf2).
      rewrite (data_after_none _ _ _ _ Hnone2) in Hd2.
      rewrite (merged_names_none _ _ Hnone2) in Hsf2.
      split_and!; [done | | by rewrite Hd2 | by rewrite Hd2].
      rewrite Hsf2, Hsf. do 2 f_equal. apply sorted_perm.
      rewrite list_to_set_nil, (left_id_L ∅ (∪)), HS2. done.
    + exfalso.
      assert (Hgin : g ∈ nf2) by (rewrite Hsplit; apply elem_of_app; right; by left).
      destruct (Hnf2 g Hgin) as [Hgnf _]. rewrite (Hnone g Hgnf) in Hg. done.
  - (* interrupted: excluded by the last line of the log *)
    rewrite Hrun in Hmain. injection Hmain as <-.
    unfold run_succeeded in Hok. cbn [add_log log_file] in Hok.
    by rewrite last_snoc in Hok.
Qed.

(** ** The properties on the sample inputs *)

(** Decide a closed proposition by evaluating its decision procedure. *)
Ltac decide_by_compute :=
  refine (bool_decide_unpack _ _); vm_compute; exact I.

(** C6 on two sample bounds. *)
Lemma file_in_scope_monotone_witness :
  date_leb (start_from_date Sample.cfg) (start_from_date Sample.cfg_late) = true
  ∧ (file_in_scope Sample.cfg_late Sample.dec1 = Ok true →
     file_in_scope Sample.cfg Sample.dec1 = Ok true)
  ∧ (file_in_scope Sample.cfg Sample.dec1 = Ok false →
     file_in_scope Sample.cfg_late Sample.dec1 = Ok false)
  ∧ (extract_datetime_from_fname Sample.dec1 = Ok None →
     file_in_scope Sample.cfg Sample.dec1 = Ok false
     ∧ file_in_scope Sample.cfg_late Sample.dec1 = Ok false).
Proof.
  split; [reflexivity|].
  apply (file_in_scope_monotone Sample.cfg Sample.cfg_late Sample.dec1).
  reflexivity.
Defined.

(** C3 on two raw files of two and three data rows. *)
Lemma append_raw_to_monthly_merges_witness :
  raw_dir Sample.world_with_raw !! "first.csv"
  = Some (Rows (Sample.header :: [["1"; "2"; "3"]; ["4"; "5"; "6"]]))
  ∧ raw_dir Sample.world_with_raw !! "second.csv"
    = Some (Rows (Sample.header :: [["7"; "8"; "9"]; ["10"; "11"; "12"]; ["13"; "14"; "15"]]))
  ∧ data_dir Sample.world_with_raw !! month_path "2025-12" = None
  ∧ ∃ w1 w2,
      append_raw_to_monthly "first.csv" "2025-12" Sample.world_with_raw = (Ok 2%nat, w1)
      ∧ data_dir w1 !! month_path "2025-12"
        = Some [Sample.header; ["1"; "2"; "3"]; ["4"; "5"; "6"]]
      ∧ append_raw_to_monthly "second.csv" "2025-12" w1 = (Ok 3%nat, w2)
      ∧ data_dir w2 !! month_path "2025-12"
        = Some [Sample.header; ["1"; "2"; "3"]; ["4"; "5"; "6"];
                ["7"; "8"; "9"]; ["10"; "11"; "12"]; ["13"; "14"; "15"]]
      ∧ (∀ p, p ≠ month_path "2025-12" →
              data_dir w2 !! p = data_dir Sample.world_with_raw !! p).
Proof.
  assert (H1 : raw_dir Sample.world_with_raw !! "first.csv"
               = Some (Rows (Sample.header :: [["1"; "2"; "3"]; ["4"; "5"; "6"]])))
    by (vm_compute; reflexivity).
  assert (H2 : raw_dir Sample.world_with_raw !! "second.csv"
               = Some (Rows (Sample.header
                             :: [["7"; "8"; "9"]; ["10"; "11"; "12"]; ["13"; "14"; "15"]])))
    by (vm_compute; reflexivity).
  assert (H3 : data_dir Sample.world_with_raw !! month_path "2025-12" = None)
    by (vm_compute; reflexivity).
  split_and!; [exact H1 | exact H2 | exact H3 |].
  exact (append_raw_to_monthly_merges Sample.world_with_raw "first.csv" "second.csv"
           "2025-12" Sample.header _ _ H1 H2 H3).
Defined.


(** C7 on a world with a monthly file in scope and one out of scope. *)
Lemma rebuild_clears_scope_months_only_witness :
  rebuild_months Sample.cfg_rebuild = true
  ∧ list_remote_csv Sample.remote_ok Sample.world_with_months
    = (Ok Sample.listed, Sample.world_with_months)
  ∧ scope_of Sample.cfg_rebuild Sample.listed ≠ []
  ∧ ∃ wc,
      clear_target_month_files_if_rebuild Sample.cfg_rebuild Sample.now
        (scope_of Sample.cfg_rebuild Sample.listed) Sample.world_with_months = (Ok tt, wc)
      ∧ (∀ f ym, f ∈ scope_of Sample.cfg_rebuild Sample.listed →
                 year_month_for Sample.now f = Ok ym →
                 data_dir wc !! month_path ym = None)
      ∧ (∀ p, (∀ f ym, f ∈ scope_of Sample.cfg_rebuild Sample.listed →
                       year_month_for Sample.now f = Ok ym → p ≠ month_path ym) →
              data_dir wc !! p = data_dir Sample.world_with_months !! p)
      ∧ sync Sample.cfg_rebuild Sample.now Sample.remote_ok ∅ Sample.world_with_months
        = match new_files_of Sample.cfg_rebuild Sample.listed ∅ with
          | [] => log LogNoDiff wc
          | _ => merge_new_files Sample.now Sample.remote_ok
                   (new_files_of Sample.cfg_rebuild Sample.listed ∅) ∅ wc
          end.
Proof.
  assert (H1 : rebuild_months Sample.cfg_rebuild = true) by reflexivity.
  assert (H2 : list_remote_csv Sample.remote_ok Sample.world_with_months
               = (Ok Sample.listed, Sample.world_with_months))
    by (vm_compute; reflexivity).
  assert (H3 : scope_of Sample.cfg_rebuild Sample.listed ≠ [])
    by (vm_compute; intros H; discriminate H).
  split_and!; [exact H1 | exact H2 | exact H3 |].
  exact (rebuild_clears_scope_months_only Sample.cfg_rebuild Sample.now Sample.remote_ok ∅
           Sample.listed Sample.world_with_months H1 H2 H3).
Defined.

(** C9 on a world whose ledger holds a file of December 2025. *)
Lemma rebuild_loses_ledgered_rows_witness :
  rebuild_months Sample.cfg_rebuild = true
  ∧ reaches_listing Sample.cfg_rebuild Sample.remote_ok Sample.world_with_months
      (Sample.connected Sample.world_with_months) Sample.listed
  ∧ Sample.dec1 ∈ scope_of Sample.cfg_rebuild Sample.listed
  ∧ (∃ state, load_state Sample.world_with_months = (Ok state, Sample.world_with_months)
              ∧ Sample.dec1 ∈ state)
  ∧ ∃ wc,
      clear_target_month_files_if_rebuild Sample.cfg_rebuild Sample.now
        (scope_of Sample.cfg_rebuild Sample.listed)
        (Sample.connected Sample.world_with_months) = (Ok tt, wc)
      ∧ data_dir wc !! month_path (partition_key Sample.now Sample.dec1) = None
      ∧ (∀ c, main Sample.cfg_rebuild Sample.now
                (replace_answer Sample.remote_ok Sample.dec1 c) Sample.world_with_months
              = main Sample.cfg_rebuild Sample.now Sample.remote_ok Sample.world_with_months)
      ∧ (∀ res w',
           main Sample.cfg_rebuild Sample.now Sample.remote_ok Sample.world_with_months
           = (res, w') →
           data_dir w' !! month_path (partition_key Sample.now Sample.dec1) = None).
Proof.
  assert (H1 : rebuild_months Sample.cfg_rebuild = true) by reflexivity.
  assert (H2 : reaches_listing Sample.cfg_rebuild Sample.remote_ok Sample.world_with_months
                 (Sample.connected Sample.world_with_months) Sample.listed)
    by (split; vm_compute; reflexivity).
  assert (H3 : Sample.dec1 ∈ scope_of Sample.cfg_rebuild Sample.listed)
    by decide_by_compute.
  assert (H4 : ∃ state, load_state Sample.world_with_months
                        = (Ok state, Sample.world_with_months) ∧ Sample.dec1 ∈ state)
    by (exists [Sample.dec1]; split; [reflexivity | apply list_elem_of_singleton; reflexivity]).
  split_and!; [exact H1 | exact H2 | exact H3 | exact H4 |].
  destruct (rebuild_loses_ledgered_rows Sample.cfg_rebuild Sample.now Sample.remote_ok
              Sample.world_with_months (Sample.connected Sample.world_with_months)
              Sample.listed Sample.dec1 H1 H2 H3 H4)
    as (wc & Hclear & Hgone & Hnew & Hsame & Hafter).
  exists wc. split_and!; [exact Hclear | exact Hgone | exact Hsame |].
  intros res w' Hmain. apply (Hafter res w' Hmain).
  intros g Hg.
  assert (Hnone : new_files_of Sample.cfg_rebuild Sample.listed
                    (list_to_set (ledger_names (state_file Sample.world_with_months)))
                  = [Sample.nov1]) by (vm_compute; reflexivity).
  rewrite Hnone in Hg. apply list_elem_of_singleton in Hg. rewrite Hg.
  vm_compute. intros H. discriminate H.
Defined.

(** C10 on a server that interrupts the second transfer. *)
Lemma interrupted_run_keeps_ledger_witness :
  reaches_listing Sample.cfg Sample.remote_interrupted Sample.empty_world
    (Sample.connected Sample.empty_world) Sample.listed
  ∧ (∃ f, f ∈ new_files_of Sample.cfg Sample.listed
                (list_to_set (ledger_names (state_file Sample.empty_world)))
          ∧ interrupted Sample.remote_interrupted f = true)
  ∧ ∃ w1,
      main Sample.cfg Sample.now Sample.remote_interrupted Sample.empty_world = (Ok tt, w1)
      ∧ last (log_file w1) = Some LogInterrupted
      ∧ state_file w1 = state_file Sample.empty_world.
Proof.
  assert (H1 : reaches_listing Sample.cfg Sample.remote_interrupted Sample.empty_world
                 (Sample.connected Sample.empty_world) Sample.listed)
    by (split; vm_compute; reflexivity).
  assert (H2 : ∃ f, f ∈ new_files_of Sample.cfg Sample.listed
                      (list_to_set (ledger_names (state_file Sample.empty_world)))
                ∧ interrupted Sample.remote_interrupted f = true).
  { exists Sample.nov1. split; [|reflexivity].
    decide_by_compute. }
  split_and!; [exact H1 | exact H2 |].
  destruct (interrupted_run_keeps_ledger Sample.cfg Sample.now Sample.remote_interrupted
              Sample.empty_world (Sample.connected Sample.empty_world) Sample.listed H1 H2)
    as (wc & w1 & pre & g & post & _ & _ & _ & _ & Hmain & Hlast & Hsf & _).
  exists w1. split_and!; [exact Hmain | exact Hlast | exact Hsf].
Defined.

(** C1 on the world a first run leaves. *)
Lemma main_idempotent_witness :
  main Sample.cfg Sample.now Sample.remote_ok Sample.empty_world
  = (Ok tt, Sample.after_first_run)
  ∧ run_succeeded Sample.after_first_run
  ∧ ∃ w2,
      main Sample.cfg Sample.now Sample.remote_ok Sample.after_first_run = (Ok tt, w2)
      ∧ state_file w2 = state_file Sample.after_first_run
      ∧ (∀ p rows, data_dir w2 !! p = Some rows →
                   data_dir Sample.after_first_run !! p = Some rows)
      ∧ (rebuild_months Sample.cfg = false → data_dir w2 = data_dir Sample.after_first_run).
Proof.
  assert (H1 : main Sample.cfg Sample.now Sample.remote_ok Sample.empty_world
               = (Ok tt, Sample.after_first_run)) by (vm_compute; reflexivity).
  assert (H2 : run_succeeded Sample.after_first_run) by (vm_compute; exact I).
  split_and!; [exact H1 | exact H2 |].
  exact (main_idempotent Sample.cfg Sample.now Sample.now Sample.remote_ok
           Sample.empty_world Sample.after_first_run H1 H2).
Defined.

(** * Further properties of the code *)

(** ** Filename parser *)

(** X1. None of the three functions on names raises, whatever the name:
    [extract_datetime_from_fname], [file_in_scope] and [year_month_for]
    always return a value. *)
Theorem parser_never_raises (cfg : config) (now : datetime) (fname : string) :
  (∃ o, extract_datetime_from_fname fname = Ok o)
  ∧ (∃ b, file_in_scope cfg fname = Ok b)
  ∧ (∃ ym, year_month_for now fname = Ok ym).
Proof.
  split_and!.
  - eexists. apply extract_datetime_total.
  - eexists. apply file_in_scope_eq.
  - eexists. apply year_month_for_eq.
Qed.

Lemma strptime_valid text format t :
  strptime text format = Ok t → datetime_valid t = true.
Proof.
  unfold strptime. destruct (compile_format _) as [ts|]; [|done].
  destruct (re_match ts text) as [[found rest]|]; [|done].
  destruct rest; [|done].
  destruct (datetime_valid _) eqn:Hv; [|done]. by intros [= <-].
Qed.

Lemma try_parse_valid cond text format t :
  try_parse cond text format = Ok (Some t) → datetime_valid t = true.
Proof.
  unfold try_parse. destruct cond as [[|]|[e|]]; cbn [rbind try_except]; try done.
  destruct (strptime text format) as [t'|[e|]] eqn:Hs; cbn [rbind try_except]; try done.
  intros [= <-]. by eapply strptime_valid.
Qed.

Lemma timestamp_valid fname t :
  extract_datetime_from_fname fname = Ok (Some t) → datetime_valid t = true.
Proof.
  unfold extract_datetime_from_fname.
  destruct (length _ <? 2)%nat; [done|].
  destruct (index _ 1) as [tail|e]; [|done]. cbn [rbind].
  destruct (try_parse _ (take 15 tail) _) as [[t1|]|e] eqn:H1; cbn [rbind]; [| |done].
  - intros [= <-]. by eapply try_parse_valid.
  - destruct (try_parse _ (take 14 tail) _) as [[t2|]|e] eqn:H2; cbn [rbind]; try done.
    intros [= <-]. by eapply try_parse_valid.
Qed.

(** X5. A timestamp that [extract_datetime_from_fname] returns is always a
    date and time of the calendar: year 1 to 9999, month 1 to 12, a day that
    the month has in that year, hour below 24, minute and second below 60. *)
Theorem extract_datetime_is_calendar_time (fname : string) (t : datetime) :
  extract_datetime_from_fname fname = Ok (Some t) →
  1 ≤ year t ≤ 9999 ∧ 1 ≤ month t ≤ 12
  ∧ 1 ≤ day t ≤ days_in_month (year t) (month t)
  ∧ 0 ≤ hour t ≤ 23 ∧ 0 ≤ minute t ≤ 59 ∧ 0 ≤ second t ≤ 59.
Proof.
  intros Hv%timestamp_valid. revert Hv. unfold datetime_valid.
  rewrite !andb_true_iff, !Z.leb_le. lia.
Qed.

(** X6. When the second segment has at least 15 characters and [T] at index
    8, only the [T] layout decides: the result is what [strptime] makes of
    the first 15 characters, and no timestamp when it rejects them. *)
Theorem extract_datetime_T_branch_decides (fname : string) (first tail : list ascii)
    (more : list (list ascii)) :
  split "_" (splitext (chars fname)).1 = first :: tail :: more →
  (15 ≤ length tail)%nat →
  tail !! 8%nat = Some "T"%char →
  extract_datetime_from_fname fname
  = Ok (match strptime (take 15 tail) "%Y%m%dT%H%M%S" with
        | Ok t => Some t
        | Raise _ => None
        end).
Proof.
  intros Hparts Hlen HT. rewrite (extract_datetime_with_tail _ _ _ _ Hparts).
  assert (H15 : (15 <=? length tail)%nat = true) by by apply Nat.leb_le.
  assert (H8 : index tail 8 = Ok "T"%char) by (unfold index; by rewrite HT).
  rewrite H15, H8. unfold try_parse at 1. cbn [rbind try_except Ascii.eqb Bool.eqb].
  destruct (strptime_raises_only_ValueError (take 15 tail) "%Y%m%dT%H%M%S")
    as [[t ->] | ->]; cbn [rbind try_except]; [done|].
  assert (Hd : isdigit (take 14 tail) = false).
  { assert (Hin : take 14 tail !! 8%nat = Some "T"%char)
      by (rewrite lookup_take_lt by lia; done).
    unfold isdigit. destruct (take 14 tail) as [|c l] eqn:Hl; [done|].
    apply not_true_is_false. intros Hall. rewrite forallb_forall in Hall.
    apply list_elem_of_lookup_2, list_elem_of_In in Hin. by apply Hall in Hin. }
  rewrite Hd. unfold try_parse. cbn [rbind try_except]. done.
Qed.

(** ** Partition keys *)

Lemma string_app_nil (s : string) : "" +:+ s = s.
Proof. reflexivity. Qed.

Lemma string_app_cons (c : ascii) (a b : string) : String c a +:+ b = String c (a +:+ b).
Proof. reflexivity. Qed.

Lemma string_length_app (a b : string) :
  String.length (a +:+ b) = (String.length a + String.length b)%nat.
Proof.
  induction a as [|c a IH]; [done|].
  rewrite string_app_cons. cbn [String.length]. by rewrite IH.
Qed.

Lemma string_app_inj_suffix (s1 s2 t1 t2 : string) :
  String.length t1 = String.length t2 →
  s1 +:+ t1 = s2 +:+ t2 → s1 = s2 ∧ t1 = t2.
Proof.
  intros Hlen. revert s2. induction s1 as [|c s1 IH]; intros [|c2 s2] Heq;
    rewrite ?string_app_nil, ?string_app_cons in Heq.
  - done.
  - exfalso. rewrite Heq in Hlen. cbn [String.length] in Hlen.
    rewrite string_length_app in Hlen. lia.
  - exfalso. rewrite <- Heq in Hlen. cbn [String.length] in Hlen.
    rewrite string_length_app in Hlen. lia.
  - injection Heq as -> Heq. destruct (IH _ Heq) as [-> ->]. done.
Qed.

Lemma format_02d_length m : 1 ≤ m ≤ 12 → String.length (format_02d m) = 2%nat.
Proof. intros Hm. enum_range m 1 12%nat; reflexivity. Qed.

Lemma format_02d_inj m1 m2 :
  1 ≤ m1 ≤ 12 → 1 ≤ m2 ≤ 12 → format_02d m1 = format_02d m2 → m1 = m2.
Proof.
  intros H1 H2 Heq.
  enum_range m1 1 12%nat; enum_range m2 1 12%nat;
    first [reflexivity | vm_compute in Heq; discriminate Heq].
Qed.

(** X7. Two names with timestamps are merged into the same monthly file
    exactly when their timestamps have the same year and the same month;
    the current time plays no role. *)
Theorem same_monthly_file_iff_same_month (now1 now2 : datetime) (f1 f2 : string)
    (t1 t2 : datetime) (ym1 ym2 : string) :
  extract_datetime_from_fname f1 = Ok (Some t1) →
  extract_datetime_from_fname f2 = Ok (Some t2) →
  year_month_for now1 f1 = Ok ym1 →
  year_month_for now2 f2 = Ok ym2 →
  month_path ym1 = month_path ym2 ↔ year t1 = year t2 ∧ month t1 = month t2.
Proof.
  intros He1 He2. unfold year_month_for. rewrite He1, He2. cbn [rbind].
  intros [= <-] [= <-].
  pose proof (datetime_valid_ranges _ (timestamp_valid _ _ He1)) as (_ & Hm1 & _).
  pose proof (datetime_valid_ranges _ (timestamp_valid _ _ He2)) as (_ & Hm2 & _).
  split.
  - unfold month_path. intros Hp.
    apply string_app_inj_suffix in Hp as [Hp _]; [|done].
    apply string_app_inj_suffix in Hp as [Hy Hm].
    + split; [by apply (inj pretty)|].
      apply (inj (String.app "-")) in Hm. by apply format_02d_inj.
    + by rewrite !string_length_app, !format_02d_length.
  - by intros [-> ->].
Qed.

(** ** Configuration values *)

Lemma found_date_fields y m d :
  0 ≤ y ≤ 9999 → 0 ≤ m ≤ 59 → 0 ≤ d ≤ 59 →
  fold_left set_field
    [("Y"%char, digits4 y); ("m"%char, digits2 m); ("d"%char, digits2 d)]
    (mk_datetime 1900 1 1 0 0 0) = mk_datetime y m d 0 0 0.
Proof.
  intros Hy Hm Hd. cbn [fold_left].
  rewrite set_field_Y, set_field_m, set_field_d.
  cbn [year month day hour minute second].
  by rewrite py_int_digits4, !py_int_digits2 by lia.
Qed.

Lemma strptime_date_text d :
  date_valid d = true →
  strptime (date_text d) "%Y-%m-%d" = Ok (mk_datetime (d_year d) (d_month d) (d_day d) 0 0 0).
Proof.
  intros Hvalid. unfold date_valid in Hvalid.
  pose proof (datetime_valid_ranges _ Hvalid) as (Hy & Hm & Hd & _).
  cbn [year month day] in Hy, Hm, Hd.
  unfold strptime.
  change (compile_format (chars "%Y-%m-%d"))
    with (Some [Group "Y" re_Y; Lit "-"; Group "m" re_m; Lit "-"; Group "d" re_day]).
  unfold date_text. rewrite <- (app_nil_r (digits2 (d_day d))).
  erewrite re_match_Y; [| lia |].
  2:{ rewrite re_match_Lit. apply re_match_m; [lia|].
      rewrite re_match_Lit. apply re_match_day; [lia|]. reflexivity. }
  rewrite found_date_fields by lia. by rewrite Hvalid.
Qed.

(** X8. [START_DATE] is the date that [START_FROM_DATE] spells as
    [YYYY-MM-DD], for every date of the calendar, and 2025-11-01 when the
    variable is unset or empty. *)
Theorem START_DATE_reads_the_date (environ : gmap string string) (s : string) (d : date) :
  date_valid d = true →
  chars s = date_text d →
  START_DATE (<["START_FROM_DATE" := s]> environ) = Ok d
  ∧ START_DATE (<["START_FROM_DATE" := ""]> environ) = Ok (mk_date 2025 11 1)
  ∧ START_DATE (delete "START_FROM_DATE" environ) = Ok (mk_date 2025 11 1).
Proof.
  intros Hvalid Hs. unfold START_DATE, _env.
  rewrite !lookup_insert_eq, lookup_delete_eq. split_and!; [|done|done].
  rewrite bool_decide_eq_false_2.
  - rewrite Hs, strptime_date_text by done. by destruct d.
  - intros ->. by destruct d.
Qed.

(** ** Ledger *)

(** X9. What [save_state] writes depends only on the set of names given:
    two lists with the same names, in any order and with any repetitions,
    leave the same world. *)
Theorem save_state_of_same_names (x y : list string) (w : world) :
  (∀ n, n ∈ x ↔ n ∈ y) → save_state x w = save_state y w.
Proof.
  intros Hxy. unfold save_state.
  assert (Hset : (list_to_set x : gset string) = list_to_set y)
    by (apply set_eq; intros n; by rewrite !elem_of_list_to_set).
  by rewrite Hset.
Qed.

(** ** Monthly aggregator *)

(** X10. Merging a source with at least a header returns the number of
    non-empty data rows and changes one monthly file only.  A monthly file
    that exists keeps its rows and gets the non-empty data rows after them:
    the header of the source is not written, whatever it is.  A monthly file
    that does not exist is created with the header followed by those rows.
    The ledger, the raw files, the log and the other monthly files are
    untouched. *)
Theorem append_raw_to_monthly_appends (w : world) (src ym : string)
    (header : row) (rest : list row) :
  raw_dir w !! src = Some (Rows (header :: rest)) →
  ∃ w' appended,
    append_raw_to_monthly src ym w = (Ok (length appended), w')
    ∧ appended = filter (λ r : row, r ≠ []) rest
    ∧ Forall (λ r, r ≠ []) appended
    ∧ (length appended ≤ length rest)%nat
    ∧ (∀ old, data_dir w !! month_path ym = Some old →
              data_dir w' !! month_path ym = Some (old ++ appended))
    ∧ (data_dir w !! month_path ym = None →
       data_dir w' !! month_path ym = Some (header :: appended))
    ∧ (∀ p, p ≠ month_path ym → data_dir w' !! p = data_dir w !! p)
    ∧ state_file w' = state_file w ∧ raw_dir w' = raw_dir w ∧ log_file w' = log_file w.
Proof.
  intros Hsrc. rewrite (append_raw_to_monthly_rows w src ym header rest Hsrc).
  eexists _, _. split; [reflexivity|]. cbn [data_dir state_file raw_dir log_file].
  split_and!; try done.
  - apply Forall_forall. by intros r [Hr _]%list_elem_of_filter.
  - apply length_filter.
  - intros old Hold. by rewrite lookup_insert_eq, Hold.
  - intros Hnone. by rewrite lookup_insert_eq, Hnone.
  - intros p Hp. by rewrite lookup_insert_ne.
Qed.

(** X11. A remote file that is fetched but holds no row at all counts as
    merged: it enters the ledger and the count of merged files, and the
    report line says 0 rows, yet no monthly file is created or changed. *)
Theorem process_file_empty_source (now : datetime) (r : remote) (f : string)
    (state_set : gset string) (ok skipped : nat) (w : world) :
  retr r f = Fetched (Rows []) →
  ∃ w' ym,
    process_file now r f (state_set, ok, skipped) w
    = (Ok ({[f]} ∪ state_set, S ok, skipped), w')
    ∧ year_month_for now f = Ok ym
    ∧ data_dir w' = data_dir w
    ∧ state_file w' = state_file w
    ∧ raw_dir w' !! f = Some (Rows [])
    ∧ log_file w' = log_file w ++ [LogDownloading f; LogMerged (month_path ym) 0].
Proof.
  intros Hr. rewrite (process_file_merged now r f state_set ok skipped w [] Hr).
  eexists _, _. split; [reflexivity|]. cbn [data_dir state_file raw_dir log_file].
  split_and!; [apply year_month_for_eq | done | done | apply lookup_insert_eq | done].
Qed.

(** ** FTP *)

Lemma connect_loop_fails r total fuel :
  ∀ from w,
    (∀ j, (j < fuel)%nat → connect_ok r (from + j) = false) →
    connect_loop r total from fuel w
    = (Raise (Exc RuntimeError), add_log w (failed_attempts total from fuel)).
Proof.
  induction fuel as [|fuel IH]; intros from w Hall.
  - unfold failed_attempts, add_log, raise. cbn. rewrite app_nil_r. by destruct w.
  - cbn [connect_loop]. unfold bind at 1. unfold log at 1.
    assert (H0 : connect_ok r from = false)
      by (rewrite <- (Nat.add_0_r from); apply Hall; lia).
    rewrite H0. unfold bind at 1. unfold log at 1.
    rewrite IH.
    + unfold add_log, failed_attempts. cbn. by rewrite <- !app_assoc.
    + intros j Hj. replace (S from + j)%nat with (from + S j)%nat by lia.
      apply Hall. lia.
Qed.

Lemma connect_loop_succeeds r total fuel :
  ∀ from i w,
    (i < fuel)%nat →
    connect_ok r (from + i) = true →
    (∀ j, (j < i)%nat → connect_ok r (from + j) = false) →
    connect_loop r total from fuel w
    = (Ok tt, add_log w (failed_attempts total from i ++ [LogConnecting (from + i) total])).
Proof.
  induction fuel as [|fuel IH]; intros from i w Hi Hok Hbefore; [lia|].
  cbn [connect_loop]. unfold bind at 1. unfold log at 1.
  destruct i as [|i].
  - rewrite Nat.add_0_r in Hok. rewrite Hok. rewrite Nat.add_0_r. done.
  - assert (H0 : connect_ok r from = false)
      by (rewrite <- (Nat.add_0_r from); apply Hbefore; lia).
    rewrite H0. unfold bind at 1. unfold log at 1.
    rewrite (IH (S from) i).
    + unfold add_log, failed_attempts. cbn.
      rewrite <- !app_assoc. cbn. by rewrite Nat.add_succ_r.
    + lia.
    + by rewrite Nat.add_succ_r in Hok.
    + intros j Hj. replace (S from + j)%nat with (from + S j)%nat by lia.
      apply Hbefore. lia.
Qed.

Lemma credentials_set_test cfg :
  credentials_set cfg →
  bool_decide (ftp_host cfg = "") || bool_decide (ftp_user cfg = "")
  || bool_decide (ftp_pass cfg = "") = false.
Proof.
  intros (Hh & Hu & Hp). by rewrite !bool_decide_eq_false_2.
Qed.

(** X12. With the credentials set, [ftp_connect] makes the attempts 1, 2, ...
    in turn and stops at the first that succeeds, having logged every attempt
    and every failure before it; when none of the [connect_retries] attempts
    succeeds it raises [RuntimeError] after exactly that many attempts.  It
    changes nothing but the log. *)
Theorem ftp_connect_bounded_retries (cfg : config) (r : remote) (w : world) :
  credentials_set cfg →
  (∀ k, (1 ≤ k ≤ connect_retries cfg)%nat →
        connect_ok r k = true →
        (∀ j, (1 ≤ j < k)%nat → connect_ok r j = false) →
        ftp_connect cfg r w
        = (Ok tt, add_log w (failed_attempts (connect_retries cfg) 1 (k - 1)
                             ++ [LogConnecting k (connect_retries cfg)])))
  ∧ ((∀ k, (1 ≤ k ≤ connect_retries cfg)%nat → connect_ok r k = false) →
     ftp_connect cfg r w
     = (Raise (Exc RuntimeError),
        add_log w (failed_attempts (connect_retries cfg) 1 (connect_retries cfg)))).
Proof.
  intros Hcred. unfold ftp_connect. rewrite (credentials_set_test cfg Hcred). split.
  - intros k Hk Hok Hbefore.
    rewrite (connect_loop_succeeds r _ _ 1 (k - 1)).
    + by replace (1 + (k - 1))%nat with k by lia.
    + lia.
    + by replace (1 + (k - 1))%nat with k by lia.
    + intros j Hj. apply Hbefore. lia.
  - intros Hnone. apply connect_loop_fails. intros j Hj. apply Hnone. lia.
Qed.

(** X13. When one of the three credentials is empty, the run makes no
    connection attempt: [main] logs its start and the error, raises
    [RuntimeError], and changes neither the ledger nor any monthly or raw
    file. *)
Theorem main_without_credentials (cfg : config) (now : datetime) (r : remote) (w : world) :
  ftp_host cfg = "" ∨ ftp_user cfg = "" ∨ ftp_pass cfg = "" →
  ftp_connect cfg r w = (Raise (Exc RuntimeError), w)
  ∧ main cfg now r w = (Raise (Exc RuntimeError), add_log w [LogStart; LogError]).
Proof.
  intros Hmissing.
  assert (Htest : bool_decide (ftp_host cfg = "") || bool_decide (ftp_user cfg = "")
                  || bool_decide (ftp_pass cfg = "") = true).
  { destruct Hmissing as [H|[H|H]]; rewrite (bool_decide_eq_true_2 _ H);
      by rewrite ?orb_true_r. }
  assert (Hc : ∀ w', ftp_connect cfg r w' = (Raise (Exc RuntimeError), w'))
    by (intros w'; unfold ftp_connect; by rewrite Htest).
  split; [apply Hc|].
  rewrite main_unfold. unfold main_handlers, bind. rewrite Hc.
  unfold log, raise, add_log. cbn. by rewrite <- app_assoc.
Qed.

(** The characters that [lower] sends to a given character of [.csv]. *)
Lemma lower_char_is (x y : ascii) :
  lower_char x = y →
  (y = "."%char → x = "."%char)
  ∧ (y = "c"%char → x = "c"%char ∨ x = "C"%char)
  ∧ (y = "s"%char → x = "s"%char ∨ x = "S"%char)
  ∧ (y = "v"%char → x = "v"%char ∨ x = "V"%char).
Proof.
  intros <-.
  destruct x as [[] [] [] [] [] [] [] []]; vm_compute;
    (split_and!; intros H; first [discriminate H | reflexivity | by left | by right]).
Qed.

(** X14. [list_remote_csv] returns, in the order of the listing, exactly the
    listed names that end in a dot followed by [c], [s], [v], each in either
    case; it changes nothing, and an exception of the listing passes
    through. *)
Theorem list_remote_csv_keeps_csv_names (r : remote) (w : world) :
  (∀ names, nlst r = Ok names →
     ∃ l, list_remote_csv r w = (Ok l, w)
       ∧ l `sublist_of` names
       ∧ ∀ n, n ∈ l ↔
            n ∈ names
            ∧ ∃ stem c s v,
                chars n = stem ++ ["."%char; c; s; v]
                ∧ (c = "c"%char ∨ c = "C"%char)
                ∧ (s = "s"%char ∨ s = "S"%char)
                ∧ (v = "v"%char ∨ v = "V"%char))
  ∧ (∀ e, nlst r = Raise e → list_remote_csv r w = (Raise e, w)).
Proof.
  split.
  - intros names Hn. unfold list_remote_csv, lift. rewrite Hn. cbn [rbind].
    eexists. split; [reflexivity|]. split; [apply sublist_filter|].
    intros n. rewrite list_elem_of_filter.
    enough (endswith (lower_char <$> chars n) (chars ".csv") = true ↔
            ∃ stem c s v,
              chars n = stem ++ ["."%char; c; s; v]
              ∧ (c = "c"%char ∨ c = "C"%char)
              ∧ (s = "s"%char ∨ s = "S"%char)
              ∧ (v = "v"%char ∨ v = "V"%char)) as -> by tauto.
    unfold endswith. rewrite bool_decide_eq_true.
    change (chars ".csv") with ["."%char; "c"%char; "s"%char; "v"%char].
    cbn [length]. rewrite length_fmap. split.
    + intros Hdrop. rewrite <- fmap_drop in Hdrop.
      destruct (drop (length (chars n) - 4) (chars n)) as [|a [|b [|c [|d [|]]]]] eqn:Hd;
        try done.
      cbn in Hdrop. injection Hdrop as Ha Hb Hc Hdd.
      destruct (lower_char_is a _ Ha) as (Ha' & _). specialize (Ha' eq_refl). subst a.
      exists (take (length (chars n) - 4) (chars n)), b, c, d.
      split; [by rewrite <- Hd, take_drop|].
      destruct (lower_char_is b _ Hb) as (_ & Hb' & _).
      destruct (lower_char_is c _ Hc) as (_ & _ & Hc' & _).
      destruct (lower_char_is d _ Hdd) as (_ & _ & _ & Hd').
      split_and!; [by apply Hb' | by apply Hc' | by apply Hd'].
    + intros (stem & c & s & v & -> & Hc & Hs & Hv).
      rewrite length_app. cbn [length].
      replace (length stem + 4 - 4)%nat with (length stem) by lia.
      rewrite fmap_app, drop_app_length'; [|by rewrite length_fmap].
      destruct Hc as [-> | ->], Hs as [-> | ->], Hv as [-> | ->]; reflexivity.
  - intros e He. unfold list_remote_csv, lift. by rewrite He.
Qed.

(** ** The run as a whole *)

Lemma last_cons_snoc {A} (a : A) l x : last (a :: l ++ [x]) = Some x.
Proof. by rewrite app_comm_cons, last_snoc. Qed.

(** A run that does not get as far as the listing ends with an exception or
    with the report of an interruption, and has only written to the log. *)
Lemma main_before_listing cfg now r w :
  (∃ w0 names, reaches_listing cfg r w w0 names)
  ∨ (∃ res lg, main cfg now r w = (res, add_log w lg)
       ∧ ((res = Ok tt ∧ last lg = Some LogInterrupted)
          ∨ (∃ e, res = Raise (Exc e) ∧ last lg = Some LogError))).
Proof.
  destruct (ftp_connect_spec cfg r) as (res & lg & [-> | ->] & Hconn).
  - destruct (list_remote_csv_world r) as [[names Hl] | [e Hl]].
    + left. exists (add_log (add_log w [LogStart]) lg), names. split; [apply Hconn | apply Hl].
    + right. destruct (main_after_connect cfg now r w _ (Hconn _)) as (-> & _).
      assert (Hs : ∀ S w', sync cfg now r S w' = (Raise e, w'))
        by (intros S w'; unfold sync, bind; by rewrite Hl).
      unfold main_handlers. rewrite Hs.
      destruct e as [e|].
      * exists (Raise (Exc e)), (LogStart :: lg ++ [LogError]). split.
        -- unfold bind, log, raise, add_log. cbn. by rewrite <- !app_assoc.
        -- right. exists e. split; [done|].
           apply last_cons_snoc.
      * exists (Ok tt), (LogStart :: lg ++ [LogInterrupted]). split.
        -- unfold log, add_log. cbn. by rewrite <- !app_assoc.
        -- left. split; [done|]. apply last_cons_snoc.
  - right. exists (Raise (Exc RuntimeError)), (LogStart :: lg ++ [LogError]). split.
    + rewrite main_unfold. unfold main_handlers, bind. rewrite Hconn.
      unfold log, raise, add_log. cbn. by rewrite <- !app_assoc.
    + right. exists RuntimeError. split; [done|]. apply last_cons_snoc.
Qed.

Lemma last_add_log w lg x : last (log_file (add_log w (lg ++ [x]))) = Some x.
Proof. unfold add_log. cbn. by rewrite app_assoc, last_snoc. Qed.

Lemma last_add_log1 w x : last (log_file (add_log w [x])) = Some x.
Proof. apply (last_add_log w []). Qed.

Lemma elem_of_scope_of cfg names f :
  f ∈ scope_of cfg names → file_in_scope cfg f = Ok true.
Proof. unfold scope_of. by intros [? _]%list_elem_of_filter. Qed.

Lemma elem_of_new_files_of cfg names S f :
  f ∈ new_files_of cfg names S ↔ (f ∉ S) ∧ f ∈ scope_of cfg names.
Proof. unfold new_files_of. by rewrite list_elem_of_filter. Qed.

Lemma elem_of_merged_names r (fs : list string) f :
  f ∈ merged_names r fs ↔ is_Some (fetched_rows r f) ∧ f ∈ fs.
Proof. unfold merged_names. by rewrite list_elem_of_filter. Qed.




Lemma length_filter_fetched r (fs : list string) :
  (length (merged_names r fs)
   + length (filter (λ f, fetched_rows r f = None) fs))%nat = length fs.
Proof.
  unfold merged_names. induction fs as [|f fs IH]; [done|].
  destruct (fetched_rows r f) as [rows|] eqn:Hf.
  - rewrite filter_cons_True by (by rewrite Hf).
    rewrite filter_cons_False by (by rewrite Hf). cbn [length]. lia.
  - rewrite filter_cons_False by (rewrite Hf; by intros [? [=]]).
    rewrite filter_cons_True by (by rewrite Hf). cbn [length]. lia.
Qed.

(** X18. When a run ends with the report [ok=.., skipped=..], every new file
    is counted once: the two counts add up to the number of new files, [ok]
    is the number of files fetched and parsed, and the saved ledger holds
    exactly the names it held plus those files. *)
Theorem report_counts_every_new_file (cfg : config) (now : datetime) (r : remote)
    (w w0 w' : world) (names : list string) (res : result unit) (ok skipped : nat) :
  reaches_listing cfg r w w0 names →
  main cfg now r w = (res, w') →
  last (log_file w') = Some (LogEnd ok skipped) →
  let nf := new_files_of cfg names (list_to_set (ledger_names (state_file w))) in
  (ok + skipped)%nat = length nf
  ∧ ok = length (merged_names r nf)
  ∧ (∀ f, f ∈ nf → interrupted r f = false)
  ∧ ∀ n, n ∈ ledger_names (state_file w') ↔
         n ∈ ledger_names (state_file w) ∨ n ∈ merged_names r nf.
Proof.
  intros Hreach Hmain Hlast nf.
  destruct (main_run cfg now r w w0 names Hreach)
    as (wc & _ & _ & _ & [[_ Hrun] | [(_ & _ & Hrun)
      | [(_ & Hnone & w1 & lg' & Hrun & Hsf & _ & Hlog & _)
      | (pre & g & post & w1 & _ & _ & _ & Hrun & _)]]]);
    rewrite Hrun in Hmain; injection Hmain as <- <-.
  - by rewrite last_add_log1 in Hlast.
  - by rewrite last_add_log1 in Hlast.
  - rewrite Hlog, !app_assoc, last_snoc in Hlast. injection Hlast as <- <-.
    fold nf in Hsf, Hnone |- *. split_and!; [apply length_filter_fetched | done | done |].
    intros n. rewrite Hsf. cbn [ledger_names].
    rewrite elem_of_sorted, elem_of_elements, elem_of_union, !elem_of_list_to_set. tauto.
  - by rewrite last_add_log1 in Hlast.
Qed.

Lemma data_after_keeps now r fs p :
  ∀ d rows, d !! p = Some rows →
  ∃ ext, data_after now r fs d !! p = Some (rows ++ ext).
Proof.
  induction fs as [|f fs IH]; intros d rows Hd.
  - exists []. by rewrite app_nil_r.
  - rewrite data_after_cons.
    destruct (fetched_rows r f) as [rows'|]; [|by apply IH].
    unfold merge_rows. destruct rows' as [|header rest]; [by apply IH|].
    destruct (decide (month_path (partition_key now f) = p)) as [->|Hne].
    + edestruct (IH (<[p := rows ++ data_rows (header :: rest)]> d)) as [ext Hext];
        [apply lookup_insert_eq|].
      rewrite Hd. rewrite Hext. exists (data_rows (header :: rest) ++ ext).
      by rewrite app_assoc.
    + apply IH. by rewrite lookup_insert_ne.
Qed.

(** X19. With rebuild mode off, a run only appends to the monthly files:
    whatever its outcome, every monthly file that existed still exists and
    starts with the rows it had. *)
Theorem main_only_appends_without_rebuild (cfg : config) (now : datetime) (r : remote)
    (w w' : world) (res : result unit) (p : string) (rows : list row) :
  rebuild_months cfg = false →
  main cfg now r w = (res, w') →
  data_dir w !! p = Some rows →
  ∃ ext, data_dir w' !! p = Some (rows ++ ext).
Proof.
  intros Hoff Hmain Hp.
  assert (Hsame : data_dir w' = data_dir w → ∃ ext, data_dir w' !! p = Some (rows ++ ext))
    by (intros ->; exists []; by rewrite app_nil_r).
  destruct (main_before_listing cfg now r w)
    as [(w0 & names & Hreach) | (res' & lg & Hrun & _)].
  2:{ rewrite Hrun in Hmain. injection Hmain as <- <-. by apply Hsame. }
  destruct (reaches_listing_frame _ _ _ _ _ Hreach) as (_ & Hd0 & _).
  destruct (main_run cfg now r w w0 names Hreach) as (wc & _ & _ & Hdc & Hcases).
  assert (Hwc : data_dir wc = data_dir w)
    by (apply map_eq; intros q; by rewrite Hdc, Hoff).
  destruct Hcases as [[_ Hrun] | [(_ & _ & Hrun) | [(_ & _ & w1 & lg' & Hrun & _ & Hd & _)
    | (pre & g & post & w1 & _ & _ & _ & Hrun & _ & Hd)]]];
    rewrite Hrun in Hmain; injection Hmain as <- <-.
  - by apply Hsame.
  - by apply Hsame.
  - rewrite Hd, Hwc. by apply data_after_keeps.
  - cbn [add_log data_dir]. rewrite Hd, Hwc. by apply data_after_keeps.
Qed.

Lemma ftp_connect_replace_answer cfg r f c w :
  ftp_connect cfg (replace_answer r f c) w = ftp_connect cfg r w.
Proof.
  unfold ftp_connect. destruct (_ || _); [done|]. apply connect_loop_replace_answer.
Qed.

Lemma merge_new_files_ext now r r' nf S w :
  (∀ f, f ∈ nf → retr r' f = retr r f) →
  merge_new_files now r' nf S w = merge_new_files now r nf S w.
Proof.
  intros Hr. unfold merge_new_files, bind. by rewrite (process_files_ext now r r' nf Hr).
Qed.

Lemma sync_replace_answer cfg now r f c S w :
  (f ∈ S ∨ file_in_scope cfg f ≠ Ok true) →
  sync cfg now (replace_answer r f c) S w = sync cfg now r S w.
Proof.
  intros Hf.
  destruct (list_remote_csv_world r) as [[names Hl] | [e Hl]].
  - destruct (sync_listed cfg now r S w names (Hl w)) as (wc & Hc & ->).
    destruct (sync_listed cfg now (replace_answer r f c) S w names (Hl w))
      as (wc' & Hc' & ->).
    rewrite Hc in Hc'. injection Hc' as <-.
    destruct (scope_of cfg names); [done|].
    assert (Hm : merge_new_files now (replace_answer r f c) (new_files_of cfg names S) S wc
                 = merge_new_files now r (new_files_of cfg names S) S wc).
    { apply merge_new_files_ext. intros g Hg. cbn.
      rewrite bool_decide_eq_false_2; [done|]. intros ->.
      apply elem_of_new_files_of in Hg as [HS Hscope].
      destruct Hf as [Hf|Hf]; [done|]. by apply Hf, (elem_of_scope_of cfg names). }
    destruct (new_files_of cfg names S); [done | exact Hm].
  - unfold sync, bind. specialize (Hl w) as Hl'.
    change (list_remote_csv (replace_answer r f c)) with (list_remote_csv r).
    by rewrite Hl'.
Qed.

(** X20. A run fetches new files only: for a name that is already in the
    ledger, or that is not in scope, the run is the same whatever the server
    would answer to its [RETR]. *)
Theorem main_fetches_new_files_only (cfg : config) (now : datetime) (r : remote)
    (w : world) (f : string) (c : fetch_result) :
  f ∈ ledger_names (state_file w) ∨ file_in_scope cfg f ≠ Ok true →
  main cfg now (replace_answer r f c) w = main cfg now r w.
Proof.
  intros Hf. rewrite !main_unfold. unfold main_handlers, bind.
  rewrite ftp_connect_replace_answer.
  destruct (ftp_connect cfg r (add_log w [LogStart])) as [[[]|e] w0]; [|done].
  rewrite sync_replace_answer; [done|].
  destruct Hf as [Hf|Hf]; [left | by right]. by apply elem_of_list_to_set.
Qed.

Lemma year_month_for_in_scope cfg now now' f :
  file_in_scope cfg f = Ok true → year_month_for now f = year_month_for now' f.
Proof.
  rewrite file_in_scope_eq. unfold year_month_for. rewrite extract_datetime_total.
  by destruct (timestamp f).
Qed.

Lemma clear_target_month_files_now cfg now now' scope w :
  (∀ f, f ∈ scope → file_in_scope cfg f = Ok true) →
  clear_target_month_files_if_rebuild cfg now scope w
  = clear_target_month_files_if_rebuild cfg now' scope w.
Proof.
  intros Hscope. unfold clear_target_month_files_if_rebuild.
  destruct (rebuild_months cfg); [|done]. cbn [negb].
  assert (mapR (year_month_for now) scope = mapR (year_month_for now') scope) as Hm.
  { induction scope as [|f scope IH]; [done|]. cbn [mapR].
    rewrite (year_month_for_in_scope cfg now now' f) by (apply Hscope; by left).
    rewrite IH; [done|]. intros g Hg. apply Hscope. by right. }
  unfold bind, lift. by rewrite Hm.
Qed.

Lemma process_files_now cfg now now' r fs :
  (∀ f, f ∈ fs → file_in_scope cfg f = Ok true) →
  ∀ acc w, process_files now r fs acc w = process_files now' r fs acc w.
Proof.
  induction fs as [|f fs IH]; intros Hscope acc w; [done|].
  cbn [process_files]. unfold bind.
  assert (process_file now r f acc w = process_file now' r f acc w) as ->.
  { destruct acc as [[S ok] sk]. unfold process_file.
    by rewrite (year_month_for_in_scope cfg now now' f) by (apply Hscope; by left). }
  destruct (process_file now' r f acc w) as [[acc'|e] w1]; [|done].
  apply IH. intros g Hg. apply Hscope. by right.
Qed.

(** X21. The current time has no effect on a run: [year_month_for] falls
    back on it only for names without timestamp, and the run asks for the
    partition key of names in scope only. *)
Theorem main_ignores_the_clock (cfg : config) (now now' : datetime) (r : remote)
    (w : world) :
  main cfg now r w = main cfg now' r w.
Proof.
  rewrite !main_unfold. unfold main_handlers, bind.
  destruct (ftp_connect cfg r (add_log w [LogStart])) as [[[]|e] w0]; [|done].
  enough (sync cfg now r (list_to_set (ledger_names (state_file w))) w0
          = sync cfg now' r (list_to_set (ledger_names (state_file w))) w0) as -> by done.
  set (S := list_to_set (ledger_names (state_file w)) : gset string).
  destruct (list_remote_csv_world r) as [[names Hl] | [e Hl]].
  - destruct (sync_listed cfg now r S w0 names (Hl w0)) as (wc & Hc & ->).
    destruct (sync_listed cfg now' r S w0 names (Hl w0)) as (wc' & Hc' & ->).
    rewrite (clear_target_month_files_now cfg now now') in Hc
      by apply elem_of_scope_of.
    rewrite Hc in Hc'. injection Hc' as <-.
    destruct (scope_of cfg names); [done|].
    assert (Hm : merge_new_files now r (new_files_of cfg names S) S wc
                 = merge_new_files now' r (new_files_of cfg names S) S wc).
    { unfold merge_new_files, bind.
      rewrite (process_files_now cfg now now'); [done|].
      intros f [_ Hf]%elem_of_new_files_of. by eapply elem_of_scope_of. }
    destruct (new_files_of cfg names S); [done | exact Hm].
  - unfold sync, bind. by rewrite !Hl.
Qed.

(** X22. A new file that the run skipped is new again for the next run: it
    is in scope and still absent from the ledger the run leaves, whatever
    the outcome of the run. *)
Theorem skipped_file_stays_new (cfg : config) (now : datetime) (r : remote)
    (w w0 w' : world) (names : list string) (res : result unit) (f : string) :
  reaches_listing cfg r w w0 names →
  main cfg now r w = (res, w') →
  f ∈ new_files_of cfg names (list_to_set (ledger_names (state_file w))) →
  fetched_rows r f = None →
  f ∈ new_files_of cfg names (list_to_set (ledger_names (state_file w'))).
Proof.
  intros Hreach Hmain Hf Hnone.
  assert (Hsame : state_file w' = state_file w →
            f ∈ new_files_of cfg names (list_to_set (ledger_names (state_file w'))))
    by (by intros ->).
  destruct (reaches_listing_frame _ _ _ _ _ Hreach) as (Hsf0 & _).
  destruct (main_run cfg now r w w0 names Hreach)
    as (wc & _ & Hsfc & _ & [[_ Hrun] | [(_ & _ & Hrun) | [(_ & _ & w1 & lg' & Hrun & Hsf & _)
      | (pre & g & post & w1 & _ & _ & _ & Hrun & Hsf & _)]]]);
    rewrite Hrun in Hmain; injection Hmain as <- <-; try (by apply Hsame).
  rewrite Hsf. cbn [ledger_names]. rewrite list_to_set_sorted_elements.
  apply elem_of_new_files_of in Hf as [HS Hscope].
  apply elem_of_new_files_of. split; [|done].
  intros [Hin|Hin]%elem_of_union; [|done].
  apply elem_of_list_to_set, elem_of_merged_names in Hin as [[rows Hrows] _].
  congruence.
Qed.

(** X23. A file whose transfer fails, or whose content the CSV reader
    rejects, is contained: the loop goes on, the file is counted as skipped
    and stays out of the ledger, what was received stays in [raw/], and no
    monthly file changes. *)
Theorem process_file_failure_is_contained (now : datetime) (r : remote) (f : string)
    (state_set : gset string) (ok skipped : nat) (w : world) :
  (∃ partial, retr r f = FetchFails partial) ∨ retr r f = Fetched BadCsv →
  ∃ w',
    process_file now r f (state_set, ok, skipped) w = (Ok (state_set, ok, S skipped), w')
    ∧ data_dir w' = data_dir w
    ∧ state_file w' = state_file w
    ∧ raw_dir w' !! f = Some (raw_left r f)
    ∧ log_file w' = log_file w ++ [LogDownloading f; LogWarnFailed f].
Proof.
  intros Hf.
  assert (H1 : fetched_rows r f = None)
    by (unfold fetched_rows; destruct Hf as [[partial ->] | ->]; done).
  assert (H2 : interrupted r f = false)
    by (unfold interrupted; destruct Hf as [[partial ->] | ->]; done).
  rewrite (process_file_skipped now r f state_set ok skipped w H1 H2).
  eexists. split; [reflexivity|]. cbn [data_dir state_file raw_dir log_file].
  split_and!; [done | done | apply lookup_insert_eq | done].
Qed.

(** ** Rebuild step *)

Lemma forM_unlink_month_log months :
  ∀ w, ∃ w' lg,
    forM months unlink_month w = (Ok tt, w')
    ∧ log_file w' = log_file w ++ lg
    ∧ ∀ l, l ∈ lg ↔
           ∃ ym, ym ∈ months ∧ l = LogRemoved (month_path ym)
                 ∧ is_Some (data_dir w !! month_path ym).
Proof.
  induction months as [|ym months IH]; intros w.
  - exists w, []. split_and!; [done | by rewrite app_nil_r |].
    intros l. split; [by intros []%not_elem_of_nil|].
    by intros (ym & []%not_elem_of_nil & _).
  - cbn [forM]. unfold bind at 1. unfold unlink_month at 1.
    destruct (data_dir w !! month_path ym) as [old|] eqn:Hold.
    + unfold log. cbn [state_file data_dir raw_dir log_file].
      edestruct (IH (mk_world (state_file w) (delete (month_path ym) (data_dir w))
                             (raw_dir w) (log_file w ++ [LogRemoved (month_path ym)])))
        as (w' & lg & Hrun & Hlog & Hlg).
      cbn [state_file data_dir raw_dir log_file] in *.
      exists w', (LogRemoved (month_path ym) :: lg). split_and!; [done | |].
      { by rewrite Hlog, <- app_assoc. }
      intros l. rewrite elem_of_cons, Hlg. split.
      * intros [-> | (ym' & Hin & -> & Hsome)].
        -- exists ym. split_and!; [by left | done | by rewrite Hold].
        -- exists ym'. split_and!; [by right | done |].
           destruct Hsome as [x Hx]. apply lookup_delete_Some in Hx as [_ Hx]. eauto.
      * intros (ym' & [->|Hin]%elem_of_cons & -> & Hsome); [by left|].
        destruct (decide (month_path ym' = month_path ym)) as [->|Hne]; [by left|].
        right. exists ym'. split_and!; [done | done |].
        by rewrite lookup_delete_ne.
    + destruct (IH w) as (w' & lg & Hrun & Hlog & Hlg).
      exists w', lg. split_and!; [done | done |].
      intros l. rewrite Hlg. split.
      * intros (ym' & Hin & -> & Hsome). exists ym'. split_and!; [by right | done | done].
      * intros (ym' & [->|Hin]%elem_of_cons & -> & Hsome).
        -- rewrite Hold in Hsome. by destruct Hsome.
        -- exists ym'. done.
Qed.

(** X24. The rebuild step reports what it deletes: with rebuild mode on,
    the lines it adds to the log are the removal lines of exactly the monthly
    files of names in scope that existed; with rebuild mode off it changes
    nothing at all. *)
Theorem rebuild_step_logs_each_removal (cfg : config) (now : datetime)
    (scope : list string) (w : world) :
  (rebuild_months cfg = true →
   ∃ w' lg,
     clear_target_month_files_if_rebuild cfg now scope w = (Ok tt, w')
     ∧ log_file w' = log_file w ++ lg
     ∧ ∀ l, l ∈ lg ↔
            ∃ f ym, f ∈ scope ∧ year_month_for now f = Ok ym
                    ∧ l = LogRemoved (month_path ym)
                    ∧ is_Some (data_dir w !! month_path ym))
  ∧ (rebuild_months cfg = false →
     clear_target_month_files_if_rebuild cfg now scope w = (Ok tt, w)).
Proof.
  unfold clear_target_month_files_if_rebuild. split; intros ->; [|done]. cbn [negb].
  unfold bind, lift. rewrite mapR_year_month_for.
  destruct (forM_unlink_month_log
              (sorted (elements (list_to_set (partition_key now <$> scope) : gset string))) w)
    as (w' & lg & Hrun & Hlog & Hlg).
  exists w', lg. split_and!; [done | done |].
  intros l. rewrite Hlg. split.
  - intros (ym & Hin & -> & Hsome).
    apply elem_of_sorted, elem_of_elements, elem_of_list_to_set, list_elem_of_fmap in Hin
      as (f & -> & Hf).
    exists f, (partition_key now f). split_and!; [done | apply year_month_for_eq | done | done].
  - intros (f & ym & Hf & Hym & -> & Hsome).
    rewrite year_month_for_eq in Hym. injection Hym as <-.
    exists (partition_key now f). split_and!; [| done | done].
    apply elem_of_sorted, elem_of_elements, elem_of_list_to_set, list_elem_of_fmap. eauto.
Qed.

(** ** Configuration flags *)

(** X25. Rebuild mode is on exactly when [REBUILD_MONTHS] is set to one of
    [1], [true], [TRUE], [yes], [YES]; any other value, the empty string
    and an unset variable leave it off. *)
Theorem config_rebuild_months_spellings (environ : gmap string string) :
  config_rebuild_months environ = true ↔
  ∃ v, environ !! "REBUILD_MONTHS" = Some v
       ∧ (v = "1" ∨ v = "true" ∨ v = "TRUE" ∨ v = "yes" ∨ v = "YES").
Proof.
  unfold config_rebuild_months, _env. rewrite bool_decide_eq_true.
  rewrite !elem_of_cons, elem_of_nil.
  destruct (environ !! "REBUILD_MONTHS") as [v|].
  - case_bool_decide as Hv.
    + subst v. split.
      * intros [H|[H|[H|[H|[H|[]]]]]]; discriminate H.
      * intros (v & [= <-] & [H|[H|[H|[H|H]]]]); discriminate H.
    + split.
      * intros H. exists v. split; [done|]. tauto.
      * intros (v' & [= <-] & H). tauto.
  - split.
    + intros [H|[H|[H|[H|[H|[]]]]]]; discriminate H.
    + by intros (v & [=] & _).
Qed.

(** ** The further properties on sample inputs *)

(** X2 on [A_20251219T170000.CSV]. *)
Lemma extract_datetime_T_layout_witness :
  ("_"%char ∉ chars "A")
  ∧ datetime_valid Cases.stamp_dec1 = true
  ∧ chars Sample.dec1 = chars "A" ++ "_"%char :: stamp_T Cases.stamp_dec1 ++ "."%char :: chars "CSV"
  ∧ extract_datetime_from_fname Sample.dec1 = Ok (Some Cases.stamp_dec1).
Proof.
  assert (H1 : "_"%char ∉ chars "A") by decide_by_compute.
  assert (H2 : datetime_valid Cases.stamp_dec1 = true) by reflexivity.
  assert (H3 : chars Sample.dec1
               = chars "A" ++ "_"%char :: stamp_T Cases.stamp_dec1 ++ "."%char :: chars "CSV")
    by (vm_compute; reflexivity).
  split_and!; [exact H1 | exact H2 | exact H3 |].
  exact (extract_datetime_T_layout Sample.dec1 "A" "CSV" Cases.stamp_dec1 H1 H2 H3).
Defined.

(** X3 on [B_20251105080000.CSV]. *)
Lemma extract_datetime_digit_layout_witness :
  ("_"%char ∉ chars "B")
  ∧ datetime_valid Cases.stamp_nov1 = true
  ∧ chars Sample.nov1
    = chars "B" ++ "_"%char :: stamp_digits Cases.stamp_nov1 ++ "."%char :: chars "CSV"
  ∧ extract_datetime_from_fname Sample.nov1 = Ok (Some Cases.stamp_nov1).
Proof.
  assert (H1 : "_"%char ∉ chars "B") by decide_by_compute.
  assert (H2 : datetime_valid Cases.stamp_nov1 = true) by reflexivity.
  assert (H3 : chars Sample.nov1
               = chars "B" ++ "_"%char :: stamp_digits Cases.stamp_nov1
                 ++ "."%char :: chars "CSV")
    by (vm_compute; reflexivity).
  split_and!; [exact H1 | exact H2 | exact H3 |].
  exact (extract_datetime_digit_layout Sample.nov1 "B" "CSV" Cases.stamp_nov1 H1 H2 H3).
Defined.

(** X4 on [README.CSV]. *)
Lemma extract_datetime_one_segment_witness :
  ("_"%char ∉ (splitext (chars "README.CSV")).1)
  ∧ length (split "_" (splitext (chars "README.CSV")).1) = 1%nat
  ∧ extract_datetime_from_fname "README.CSV" = Ok None.
Proof.
  assert (H1 : "_"%char ∉ (splitext (chars "README.CSV")).1) by decide_by_compute.
  split; [exact H1|].
  exact (extract_datetime_one_segment "README.CSV" H1).
Defined.

(** X5 on [A_20251219T170000.CSV]. *)
Lemma extract_datetime_is_calendar_time_witness :
  extract_datetime_from_fname Sample.dec1 = Ok (Some Cases.stamp_dec1)
  ∧ 1 ≤ year Cases.stamp_dec1 ≤ 9999 ∧ 1 ≤ month Cases.stamp_dec1 ≤ 12
  ∧ 1 ≤ day Cases.stamp_dec1 ≤ days_in_month (year Cases.stamp_dec1) (month Cases.stamp_dec1)
  ∧ 0 ≤ hour Cases.stamp_dec1 ≤ 23 ∧ 0 ≤ minute Cases.stamp_dec1 ≤ 59
  ∧ 0 ≤ second Cases.stamp_dec1 ≤ 59.
Proof.
  assert (H1 : extract_datetime_from_fname Sample.dec1 = Ok (Some Cases.stamp_dec1))
    by (vm_compute; reflexivity).
  split; [exact H1|].
  exact (extract_datetime_is_calendar_time Sample.dec1 Cases.stamp_dec1 H1).
Defined.

(** X6 on a name of the [T] layout with day 32: no timestamp. *)
Lemma extract_datetime_T_branch_decides_witness :
  split "_" (splitext (chars Cases.bad_day)).1 = [chars "A"; chars "20251232T170000"]
  ∧ (15 ≤ length (chars "20251232T170000"))%nat
  ∧ chars "20251232T170000" !! 8%nat = Some "T"%char
  ∧ extract_datetime_from_fname Cases.bad_day = Ok None.
Proof.
  assert (H1 : split "_" (splitext (chars Cases.bad_day)).1
               = [chars "A"; chars "20251232T170000"]) by (vm_compute; reflexivity).
  assert (H2 : (15 ≤ length (chars "20251232T170000"))%nat) by (vm_compute; lia).
  assert (H3 : chars "20251232T170000" !! 8%nat = Some "T"%char) by reflexivity.
  split_and!; [exact H1 | exact H2 | exact H3 |].
  exact (extract_datetime_T_branch_decides Cases.bad_day _ _ _ H1 H2 H3).
Defined.

(** X7 on two files of December 2025. *)
Lemma same_monthly_file_iff_same_month_witness :
  extract_datetime_from_fname Sample.dec1 = Ok (Some Cases.stamp_dec1)
  ∧ extract_datetime_from_fname Sample.dec2 = Ok (Some Cases.stamp_dec2)
  ∧ year_month_for Sample.now Sample.dec1 = Ok "2025-12"
  ∧ year_month_for Sample.now Sample.dec2 = Ok "2025-12"
  ∧ (month_path "2025-12" = month_path "2025-12" ↔
     year Cases.stamp_dec1 = year Cases.stamp_dec2
     ∧ month Cases.stamp_dec1 = month Cases.stamp_dec2).
Proof.
  assert (H1 : extract_datetime_from_fname Sample.dec1 = Ok (Some Cases.stamp_dec1))
    by (vm_compute; reflexivity).
  assert (H2 : extract_datetime_from_fname Sample.dec2 = Ok (Some Cases.stamp_dec2))
    by (vm_compute; reflexivity).
  assert (H3 : year_month_for Sample.now Sample.dec1 = Ok "2025-12")
    by (vm_compute; reflexivity).
  assert (H4 : year_month_for Sample.now Sample.dec2 = Ok "2025-12")
    by (vm_compute; reflexivity).
  split_and!; [exact H1 | exact H2 | exact H3 | exact H4 |].
  exact (same_monthly_file_iff_same_month Sample.now Sample.now Sample.dec1 Sample.dec2
           Cases.stamp_dec1 Cases.stamp_dec2 "2025-12" "2025-12" H1 H2 H3 H4).
Defined.

(** X8 on [START_FROM_DATE=2025-12-01]. *)
Lemma START_DATE_reads_the_date_witness :
  date_valid (mk_date 2025 12 1) = true
  ∧ chars "2025-12-01" = date_text (mk_date 2025 12 1)
  ∧ START_DATE (<["START_FROM_DATE" := "2025-12-01"]> ∅) = Ok (mk_date 2025 12 1).
Proof.
  assert (H1 : date_valid (mk_date 2025 12 1) = true) by reflexivity.
  assert (H2 : chars "2025-12-01" = date_text (mk_date 2025 12 1))
    by (vm_compute; reflexivity).
  split_and!; [exact H1 | exact H2 |].
  exact (proj1 (START_DATE_reads_the_date ∅ "2025-12-01" (mk_date 2025 12 1) H1 H2)).
Defined.

(** X9 on a list with a repetition and the list of its names. *)
Lemma save_state_of_same_names_witness :
  (∀ n, n ∈ [Sample.dec1; Sample.nov1; Sample.dec1] ↔ n ∈ [Sample.nov1; Sample.dec1])
  ∧ save_state [Sample.dec1; Sample.nov1; Sample.dec1] Sample.empty_world
    = save_state [Sample.nov1; Sample.dec1] Sample.empty_world.
Proof.
  assert (H1 : ∀ n, n ∈ [Sample.dec1; Sample.nov1; Sample.dec1]
                    ↔ n ∈ [Sample.nov1; Sample.dec1]).
  { intros n. rewrite !elem_of_cons, !elem_of_nil. tauto. }
  split; [exact H1|].
  exact (save_state_of_same_names _ _ Sample.empty_world H1).
Defined.

(** X10 on a monthly file with another header. *)
Lemma append_raw_to_monthly_appends_witness :
  raw_dir Cases.world_to_merge !! "new.csv"
  = Some (Rows (Sample.header :: [["1"; "2"; "3"]; []; ["4"; "5"; "6"]]))
  ∧ ∃ w',
      append_raw_to_monthly "new.csv" "2025-12" Cases.world_to_merge = (Ok 2%nat, w')
      ∧ data_dir w' !! month_path "2025-12"
        = Some [["x"; "y"]; ["0"; "0"]; ["1"; "2"; "3"]; ["4"; "5"; "6"]].
Proof.
  assert (H1 : raw_dir Cases.world_to_merge !! "new.csv"
               = Some (Rows (Sample.header :: [["1"; "2"; "3"]; []; ["4"; "5"; "6"]])))
    by (vm_compute; reflexivity).
  split; [exact H1|].
  destruct (append_raw_to_monthly_appends Cases.world_to_merge "new.csv" "2025-12"
              Sample.header _ H1)
    as (w' & appended & Hrun & Happ & _ & _ & Hold & _).
  exists w'. rewrite Happ in Hrun, Hold. split; [exact Hrun|].
  apply (Hold [["x"; "y"]; ["0"; "0"]]). vm_compute. reflexivity.
Defined.

(** X11 on a server whose files are empty. *)
Lemma process_file_empty_source_witness :
  retr Cases.remote_empty_files Sample.dec1 = Fetched (Rows [])
  ∧ ∃ w',
      process_file Sample.now Cases.remote_empty_files Sample.dec1 (∅, 0%nat, 0%nat)
        Sample.empty_world = (Ok ({[Sample.dec1]} ∪ ∅, 1%nat, 0%nat), w')
      ∧ data_dir w' = data_dir Sample.empty_world.
Proof.
  assert (H1 : retr Cases.remote_empty_files Sample.dec1 = Fetched (Rows [])) by reflexivity.
  split; [exact H1|].
  destruct (process_file_empty_source Sample.now Cases.remote_empty_files Sample.dec1 ∅
              0%nat 0%nat Sample.empty_world H1) as (w' & ym & Hrun & _ & Hd & _).
  exists w'. split; [exact Hrun | exact Hd].
Defined.

(** X12 on a server that accepts the second attempt of three. *)
Lemma ftp_connect_bounded_retries_witness :
  credentials_set Sample.cfg
  ∧ ftp_connect Sample.cfg Cases.remote_second_attempt Sample.empty_world
    = (Ok tt, add_log Sample.empty_world
                [LogConnecting 1 3; LogConnectFailed; LogConnecting 2 3]).
Proof.
  assert (H1 : credentials_set Sample.cfg)
    by (split_and!; intros H; discriminate H).
  split; [exact H1|].
  destruct (ftp_connect_bounded_retries Sample.cfg Cases.remote_second_attempt
              Sample.empty_world H1) as [Hsucc _].
  apply (Hsucc 2%nat).
  - cbn. lia.
  - reflexivity.
  - intros j Hj. assert (j = 1%nat) as -> by lia. reflexivity.
Defined.

(** X13 on a configuration without password. *)
Lemma main_without_credentials_witness :
  (ftp_host Cases.cfg_no_password = "" ∨ ftp_user Cases.cfg_no_password = ""
   ∨ ftp_pass Cases.cfg_no_password = "")
  ∧ main Cases.cfg_no_password Sample.now Sample.remote_ok Sample.empty_world
    = (Raise (Exc RuntimeError), add_log Sample.empty_world [LogStart; LogError]).
Proof.
  assert (H1 : ftp_host Cases.cfg_no_password = "" ∨ ftp_user Cases.cfg_no_password = ""
               ∨ ftp_pass Cases.cfg_no_password = "") by (right; right; reflexivity).
  split; [exact H1|].
  exact (proj2 (main_without_credentials Cases.cfg_no_password Sample.now Sample.remote_ok
                  Sample.empty_world H1)).
Defined.



(** X18 on a server on which one transfer of two fails. *)
Lemma report_counts_every_new_file_witness :
  reaches_listing Sample.cfg Sample.remote_nov1_fails Sample.empty_world
    (Sample.connected Sample.empty_world) Cases.listed
  ∧ main Sample.cfg Sample.now Sample.remote_nov1_fails Sample.empty_world
    = (Ok tt, Cases.run_nov1_fails.2)
  ∧ last (log_file Cases.run_nov1_fails.2) = Some (LogEnd 1 1)
  ∧ (1 + 1)%nat
    = length (new_files_of Sample.cfg Cases.listed
                (list_to_set (ledger_names (state_file Sample.empty_world)))).
Proof.
  assert (H1 : reaches_listing Sample.cfg Sample.remote_nov1_fails Sample.empty_world
                 (Sample.connected Sample.empty_world) Cases.listed)
    by (split; vm_compute; reflexivity).
  assert (H2 : main Sample.cfg Sample.now Sample.remote_nov1_fails Sample.empty_world
               = (Ok tt, Cases.run_nov1_fails.2)) by (vm_compute; reflexivity).
  assert (H3 : last (log_file Cases.run_nov1_fails.2) = Some (LogEnd 1 1))
    by (vm_compute; reflexivity).
  split_and!; [exact H1 | exact H2 | exact H3 |].
  exact (proj1 (report_counts_every_new_file Sample.cfg Sample.now Sample.remote_nov1_fails
                  Sample.empty_world (Sample.connected Sample.empty_world)
                  Cases.run_nov1_fails.2 Cases.listed (Ok tt) 1%nat 1%nat H1 H2 H3)).
Defined.

(** X19 on a world with monthly files. *)
Lemma main_only_appends_without_rebuild_witness :
  rebuild_months Sample.cfg = false
  ∧ main Sample.cfg Sample.now Sample.remote_ok Sample.world_with_months
    = (Ok tt, Cases.run_over_months.2)
  ∧ data_dir Sample.world_with_months !! "2025-10.csv"
    = Some [Sample.header; ["0"; "0"; "0"]]
  ∧ ∃ ext, data_dir Cases.run_over_months.2 !! "2025-10.csv"
           = Some ([Sample.header; ["0"; "0"; "0"]] ++ ext).
Proof.
  assert (H1 : rebuild_months Sample.cfg = false) by reflexivity.
  assert (H2 : main Sample.cfg Sample.now Sample.remote_ok Sample.world_with_months
               = (Ok tt, Cases.run_over_months.2)) by (vm_compute; reflexivity).
  assert (H3 : data_dir Sample.world_with_months !! "2025-10.csv"
               = Some [Sample.header; ["0"; "0"; "0"]]) by (vm_compute; reflexivity).
  split_and!; [exact H1 | exact H2 | exact H3 |].
  exact (main_only_appends_without_rebuild Sample.cfg Sample.now Sample.remote_ok
           Sample.world_with_months Cases.run_over_months.2 (Ok tt) "2025-10.csv" _
           H1 H2 H3).
Defined.

(** X20 on a name of the ledger. *)
Lemma main_fetches_new_files_only_witness :
  (Sample.dec1 ∈ ledger_names (state_file Sample.world_with_months)
   ∨ file_in_scope Sample.cfg Sample.dec1 ≠ Ok true)
  ∧ main Sample.cfg Sample.now
      (replace_answer Sample.remote_ok Sample.dec1 (FetchFails (Rows [])))
      Sample.world_with_months
    = main Sample.cfg Sample.now Sample.remote_ok Sample.world_with_months.
Proof.
  assert (H1 : Sample.dec1 ∈ ledger_names (state_file Sample.world_with_months)
               ∨ file_in_scope Sample.cfg Sample.dec1 ≠ Ok true)
    by (left; decide_by_compute).
  split; [exact H1|].
  exact (main_fetches_new_files_only Sample.cfg Sample.now Sample.remote_ok
           Sample.world_with_months Sample.dec1 (FetchFails (Rows [])) H1).
Defined.

(** X22 on the file whose transfer failed. *)
Lemma skipped_file_stays_new_witness :
  reaches_listing Sample.cfg Sample.remote_nov1_fails Sample.empty_world
    (Sample.connected Sample.empty_world) Cases.listed
  ∧ main Sample.cfg Sample.now Sample.remote_nov1_fails Sample.empty_world
    = (Ok tt, Cases.run_nov1_fails.2)
  ∧ Sample.nov1 ∈ new_files_of Sample.cfg Cases.listed
                    (list_to_set (ledger_names (state_file Sample.empty_world)))
  ∧ fetched_rows Sample.remote_nov1_fails Sample.nov1 = None
  ∧ Sample.nov1 ∈ new_files_of Sample.cfg Cases.listed
                    (list_to_set (ledger_names (state_file Cases.run_nov1_fails.2))).
Proof.
  assert (H1 : reaches_listing Sample.cfg Sample.remote_nov1_fails Sample.empty_world
                 (Sample.connected Sample.empty_world) Cases.listed)
    by (split; vm_compute; reflexivity).
  assert (H2 : main Sample.cfg Sample.now Sample.remote_nov1_fails Sample.empty_world
               = (Ok tt, Cases.run_nov1_fails.2)) by (vm_compute; reflexivity).
  assert (H3 : Sample.nov1 ∈ new_files_of Sample.cfg Cases.listed
                 (list_to_set (ledger_names (state_file Sample.empty_world))))
    by decide_by_compute.
  assert (H4 : fetched_rows Sample.remote_nov1_fails Sample.nov1 = None) by reflexivity.
  split_and!; [exact H1 | exact H2 | exact H3 | exact H4 |].
  exact (skipped_file_stays_new Sample.cfg Sample.now Sample.remote_nov1_fails
           Sample.empty_world (Sample.connected Sample.empty_world) Cases.run_nov1_fails.2
           Cases.listed (Ok tt) Sample.nov1 H1 H2 H3 H4).
Defined.

(** X23 on a transfer that fails. *)
Lemma process_file_failure_is_contained_witness :
  ((∃ partial, retr Sample.remote_nov1_fails Sample.nov1 = FetchFails partial)
   ∨ retr Sample.remote_nov1_fails Sample.nov1 = Fetched BadCsv)
  ∧ ∃ w',
      process_file Sample.now Sample.remote_nov1_fails Sample.nov1 (∅, 0%nat, 0%nat)
        Sample.empty_world = (Ok (∅, 0%nat, 1%nat), w')
      ∧ data_dir w' = data_dir Sample.empty_world
      ∧ state_file w' = state_file Sample.empty_world.
Proof.
  assert (H1 : (∃ partial, retr Sample.remote_nov1_fails Sample.nov1 = FetchFails partial)
               ∨ retr Sample.remote_nov1_fails Sample.nov1 = Fetched BadCsv)
    by (left; exists (Rows []); reflexivity).
  split; [exact H1|].
  destruct (process_file_failure_is_contained Sample.now Sample.remote_nov1_fails Sample.nov1
              ∅ 0%nat 0%nat Sample.empty_world H1) as (w' & Hrun & Hd & Hs & _).
  exists w'. split_and!; [exact Hrun | exact Hd | exact Hs].
Defined.
